(** * Robot simulator kernel: collision test, range sensor, motion
      integrator and command-queue executor

    A shallow embedding of the simulation code of the screen component
    [Index] (file [frontend/store/robotStore.ts], second document), and
    the properties its specification states about it. The last part,
    "Further properties of the code", covers the rest of the kernel:
    runs of the executor and their interruption, the states the
    component can reach under any sequence of handler calls, the arena,
    the sensor readings, and saving and loading.

    ** Numbers

    A JavaScript [number] is modelled as an exact rational ([Q]): every
    finite double is a rational, and the constants of the code (5, 15,
    180, 200, 360, the obstacle tables) are integers. Arithmetic is exact
    here; rounding, NaN and the infinities are not modelled. Numeric
    equality is [Qeq] ([==]); Leibniz equality is used where the code
    copies a value without computing on it.

    Where rounding decides a property (the two turns of [moveRobot] on a
    heading that is not a whole number), the module [Double] gives the
    same code over IEEE 754 binary64 numbers, the kernel's [float].

    ** State and time

    The [useState] cells and the timer reference of the component are
    the fields of one record, [State], and each handler is a function on
    it: a handler sees the values of the latest render. The 200 ms delay
    of the executor is not measured; the firing of the pending timer is
    an event of its own ([timerFires]), so that other handlers can be
    placed between two firings.

    ** Host

    [Math.cos], [Math.sin], [Math.PI] and the window width read from
    [Dimensions.get('window')] belong to the host, not to the
    repository: they are the fields of the class [JsHost], and every
    theorem holds for every host. *)

From Stdlib Require Import QArith Qround Qminmax ZArith List String Bool Lia Lqa.
From Stdlib Require Import Permutation.
From Corelib Require PrimFloat FloatOps SpecFloat.
Import ListNotations.
Open Scope Q_scope.

Set Implicit Arguments.

(** ** JavaScript operators on numbers *)

(** [a < b] *)
Definition Qlt_bool (a b : Q) : bool := negb (Qle_bool b a).

(** Truncation toward zero of a rational. *)
Definition Qtrunc (q : Q) : Z := Z.quot (Qnum q) (Zpos (Qden q)).

(** [a % b]: the remainder of the truncated division, with the sign of
    the dividend. The code only ever divides by the constant 360 (a zero
    divisor, NaN in JavaScript, does not occur). *)
Definition js_rem (a b : Q) : Q := a - b * inject_Z (Qtrunc (a / b)).

(** [Math.min] *)
Definition Math_min (a b : Q) : Q := Qmin a b.

(** [Math.max] *)
Definition Math_max (a b : Q) : Q := Qmax a b.

(** ** The host *)

Class JsHost : Type := {
  Math_cos : Q -> Q;
  Math_sin : Q -> Q;
  Math_PI : Q;
  (** [const { width: screenWidth } = Dimensions.get('window')] *)
  screenWidth : Q
}.

(** A host to run the model on: a 432-unit wide window (so a 400x400
    canvas), pi to fifteen decimals, and cosine and sine as their Taylor
    polynomials of degree 8 and 9, in lowest terms. At 0 they give
    exactly 1 and 0. *)
Definition sample_cos (r : Q) : Q :=
  Qred (1 - r * r / 2 + r * r * r * r / 24 - r * r * r * r * r * r / 720
          + r * r * r * r * r * r * r * r / 40320).

Definition sample_sin (r : Q) : Q :=
  Qred (r - r * r * r / 6 + r * r * r * r * r / 120
          - r * r * r * r * r * r * r / 5040
          + r * r * r * r * r * r * r * r * r / 362880).

Definition sampleHost : JsHost := {|
  Math_cos := sample_cos;
  Math_sin := sample_sin;
  Math_PI := 3141592653589793 # 1000000000000000;
  screenWidth := 432
|}.

(** ** Data model *)

Inductive Action : Type := forward | backward | left | right | stop.

(** [type Command = { id; action; distance? }] *)
Record Command : Type := mkCommand {
  cmd_id : string;
  action : Action;
  cmd_distance : option Q
}.

(** [type Position = { x; y; angle }] *)
Record Position : Type := mkPosition {
  x : Q;
  y : Q;
  angle : Q
}.

(** [type Obstacle = { x; y; width; height }] *)
Record Obstacle : Type := mkObstacle {
  obs_x : Q;
  obs_y : Q;
  width : Q;
  height : Q
}.

(** [type Environment = { name; obstacles }] *)
Record Environment : Type := mkEnvironment {
  name : string;
  obstacles : list Obstacle
}.

(** A saved program as the persistence service returns it. *)
Record SavedProgram : Type := mkSavedProgram {
  prog_name : string;
  prog_commands : list Command;
  prog_environment : string
}.

(** The timer armed by one iteration of the loop of [executeCommands]:
    the action its callback passes to [moveRobot], the commands the loop
    still has to visit once the awaited promise resolves, and the
    environment the closure of that render sees. *)
Record Timeout : Type := mkTimeout {
  timeout_action : Action;
  timeout_rest : list Command;
  timeout_env : Environment
}.

(** The state of the component that the kernel reads and writes:
    the [useState] cells [position], [commands], [isExecuting],
    [currentEnvironment], and the timer held by [executionRef]
    ([None]: no timer is pending). *)
Record State : Type := mkState {
  position : Position;
  commands : list Command;
  isExecuting : bool;
  currentEnvironment : Environment;
  executionRef : option Timeout
}.

Definition setPosition (p : Position) (st : State) : State :=
  mkState p (commands st) (isExecuting st) (currentEnvironment st) (executionRef st).

Definition setCommands (cs : list Command) (st : State) : State :=
  mkState (position st) cs (isExecuting st) (currentEnvironment st) (executionRef st).

Definition setIsExecuting (b : bool) (st : State) : State :=
  mkState (position st) (commands st) b (currentEnvironment st) (executionRef st).

Definition setCurrentEnvironment (e : Environment) (st : State) : State :=
  mkState (position st) (commands st) (isExecuting st) e (executionRef st).

Definition setExecutionRef (t : option Timeout) (st : State) : State :=
  mkState (position st) (commands st) (isExecuting st) (currentEnvironment st) t.

(** [clearTimeout(executionRef.current)]: the pending callback never
    runs, so the promise the loop awaits never resolves. *)
Definition clearTimeout (st : State) : State := setExecutionRef None st.

Section Simulator.

Context {host : JsHost}.

Definition CANVAS_WIDTH : Q := Math_max (screenWidth - 32) 300.
Definition CANVAS_HEIGHT : Q := 400.

Definition ENVIRONMENTS : list Environment :=
  [ mkEnvironment "Open Space"
      [ mkObstacle 0 0 CANVAS_WIDTH 5;
        mkObstacle 0 (CANVAS_HEIGHT - 5) CANVAS_WIDTH 5;
        mkObstacle 0 0 5 CANVAS_HEIGHT;
        mkObstacle (CANVAS_WIDTH - 5) 0 5 CANVAS_HEIGHT ];
    mkEnvironment "Simple Maze"
      [ mkObstacle 0 0 CANVAS_WIDTH 5;
        mkObstacle 0 (CANVAS_HEIGHT - 5) CANVAS_WIDTH 5;
        mkObstacle 0 0 5 CANVAS_HEIGHT;
        mkObstacle (CANVAS_WIDTH - 5) 0 5 CANVAS_HEIGHT;
        mkObstacle 100 100 150 20;
        mkObstacle 250 200 20 150 ];
    mkEnvironment "Obstacle Course"
      [ mkObstacle 0 0 CANVAS_WIDTH 5;
        mkObstacle 0 (CANVAS_HEIGHT - 5) CANVAS_WIDTH 5;
        mkObstacle 0 0 5 CANVAS_HEIGHT;
        mkObstacle (CANVAS_WIDTH - 5) 0 5 CANVAS_HEIGHT;
        mkObstacle 80 80 40 40;
        mkObstacle 200 150 60 30;
        mkObstacle 150 280 50 50 ] ].

(** The loop of [checkCollision], over the obstacles in order, leaving
    at the first one that contains the point. *)
Fixpoint checkCollision_loop (obs : list Obstacle) (newX newY : Q) : bool :=
  match obs with
  | [] => false
  | obstacle :: rest =>
      if Qle_bool (obs_x obstacle) newX
         && Qle_bool newX (obs_x obstacle + width obstacle)
         && Qle_bool (obs_y obstacle) newY
         && Qle_bool newY (obs_y obstacle + height obstacle)
      then true
      else checkCollision_loop rest newX newY
  end.

Definition checkCollision (env : Environment) (newX newY : Q) : bool :=
  checkCollision_loop (obstacles env) newX newY.

(** The updater [moveRobot] hands to [setPosition]. [newPos] starts as a
    copy of [prev]; an action without a case ([stop]) leaves it so. *)
Definition moveRobot (env : Environment) (a : Action) (prev : Position) : Position :=
  let newPos := prev in
  let moveDistance := 5 in
  match a with
  | forward =>
      let newX := x prev + Math_cos ((angle prev * Math_PI) / 180) * moveDistance in
      let newY := y prev + Math_sin ((angle prev * Math_PI) / 180) * moveDistance in
      if negb (checkCollision env newX newY)
      then mkPosition newX newY (angle newPos)
      else newPos
  | backward =>
      let backX := x prev - Math_cos ((angle prev * Math_PI) / 180) * moveDistance in
      let backY := y prev - Math_sin ((angle prev * Math_PI) / 180) * moveDistance in
      if negb (checkCollision env backX backY)
      then mkPosition backX backY (angle newPos)
      else newPos
  | left => mkPosition (x newPos) (y newPos) (js_rem (angle prev - 15 + 360) 360)
  | right => mkPosition (x newPos) (y newPos) (js_rem (angle prev + 15) 360)
  | stop => newPos
  end.

(** The [while] loop of [calculateDistance], from a state
    [(distance, testX, testY)]. [fuel] bounds the number of times the loop
    test is evaluated; [None] means the bound was reached first. *)
Fixpoint calculateDistance_loop (fuel : nat) (env : Environment) (angle : Q)
    (distance testX testY : Q) : option Q :=
  let step := 5 in
  let maxDistance := 200 in
  match fuel with
  | O => None
  | S fuel' =>
      if Qlt_bool distance maxDistance then
        let testX := testX + Math_cos ((angle * Math_PI) / 180) * step in
        let testY := testY + Math_sin ((angle * Math_PI) / 180) * step in
        if checkCollision env testX testY
        then Some distance
        else calculateDistance_loop fuel' env angle (distance + step) testX testY
      else Some distance
  end.

Definition calculateDistance (fuel : nat) (env : Environment) (x y angle : Q)
    : option Q :=
  let maxDistance := 200 in
  match calculateDistance_loop fuel env angle 0 x y with
  | Some distance => Some (Math_min distance maxDistance)
  | None => None
  end.

(** The point the loop of [calculateDistance] tests in its [k]-th
    iteration, for one coordinate: [k] additions of [delta] to [origin]. *)
Fixpoint probe (k : nat) (origin delta : Q) : Q :=
  match k with
  | O => origin
  | S k' => probe k' origin delta + delta
  end.

Definition probeX (x angle : Q) (k : nat) : Q :=
  probe k x (Math_cos ((angle * Math_PI) / 180) * 5).

Definition probeY (y angle : Q) (k : nat) : Q :=
  probe k y (Math_sin ((angle * Math_PI) / 180) * 5).

(** ** The command-queue executor *)

(** [addCommand]; [now] stands for [Date.now().toString()]. *)
Definition addCommand (now : string) (a : Action) (st : State) : State :=
  let newCommand := mkCommand now a None in
  setCommands (commands st ++ [newCommand]) st.

(** The [for ... of] loop of [executeCommands] at the head of an
    iteration, with [cs] the commands not yet visited: it arms the timer
    of the next command and suspends on its promise, or, past the last
    command, leaves the loop and runs [setIsExecuting(false)]. *)
Definition executeCommands_loop (env : Environment) (cs : list Command)
    (st : State) : State :=
  match cs with
  | command :: rest =>
      setExecutionRef (Some (mkTimeout (action command) rest env)) st
  | [] => setIsExecuting false st
  end.

(** [executeCommands], up to its first suspension. *)
Definition executeCommands (st : State) : State :=
  if (List.length (commands st) =? 0)%nat || isExecuting st then st
  else executeCommands_loop (currentEnvironment st) (commands st)
         (setIsExecuting true st).

(** The pending timer fires: its callback runs [moveRobot] and resolves
    the promise, and the loop goes on to its next iteration. Without a
    pending timer nothing happens. *)
Definition timerFires (st : State) : State :=
  match executionRef st with
  | None => st
  | Some t =>
      let st := setExecutionRef None st in
      let st := setPosition
                  (moveRobot (timeout_env t) (timeout_action t) (position st)) st in
      executeCommands_loop (timeout_env t) (timeout_rest t) st
  end.

(** At most [n] timers fire, one after the other, with no other event in
    between; it stops early when no timer is pending. *)
Fixpoint drain (n : nat) (st : State) : State :=
  match n with
  | O => st
  | S n' =>
      match executionRef st with
      | None => st
      | Some _ => drain n' (timerFires st)
      end
  end.

(** An undisturbed execution of the queue: [executeCommands], then one
    timer per queued command. *)
Definition runProgram (st : State) : State :=
  drain (List.length (commands st)) (executeCommands st).

Definition clearCommands (st : State) : State :=
  let st := clearTimeout st in
  let st := setCommands [] st in
  setIsExecuting false st.

Definition resetRobot (st : State) : State :=
  let st := clearTimeout st in
  let st := setPosition (mkPosition (CANVAS_WIDTH / 2) (CANVAS_HEIGHT / 2) 0) st in
  setIsExecuting false st.

(** [ENVIRONMENTS.find((e) => e.name === program.environment)] *)
Definition findEnvironment (n : string) : option Environment :=
  find (fun e => String.eqb (name e) n) ENVIRONMENTS.

Definition loadProgram (program : SavedProgram) (st : State) : State :=
  let st := setCommands (prog_commands program) st in
  let env := findEnvironment (prog_environment program) in
  let st := match env with
            | Some env => setCurrentEnvironment env st
            | None => st
            end in
  resetRobot st.

(** The handler of an environment button:
    [setCurrentEnvironment(env); resetRobot()]. *)
Definition selectEnvironment (env : Environment) (st : State) : State :=
  resetRobot (setCurrentEnvironment env st).

(** The state of the component when it is mounted. *)
Definition initialState : State :=
  mkState (mkPosition (CANVAS_WIDTH / 2) (CANVAS_HEIGHT / 2) 0) [] false
    (nth 0 ENVIRONMENTS (mkEnvironment "" [])) None.

(** [moveRobot] applied to a list of actions, first to last. *)
Definition applyActions (env : Environment) (acts : list Action)
    (p : Position) : Position :=
  fold_left (fun p a => moveRobot env a p) acts p.

End Simulator.

(** ** The other handlers of the component *)

(** [Math.round]: the nearest integer, a half going up. *)
Definition Math_round (q : Q) : Q := inject_Z (Qfloor (q + (1 # 2))).

(** The [sensors] cell: [{ front, left, right }]. *)
Record Sensors : Type := mkSensors {
  sensor_front : Q;
  sensor_left : Q;
  sensor_right : Q
}.

(** What the user and the timer can do to the component: the handlers
    bound in the markup, and the firing of the pending timer. The
    environment buttons are those of [ENVIRONMENTS.map], numbered from 0;
    a program to load is one of the saved programs the service returned. *)
Inductive Event : Type :=
  | PressMove (a : Action)
  | PressAdd (now : string) (a : Action)
  | PressExecute
  | TimerFires
  | PressClear
  | PressReset
  | PressEnvironment (i : nat)
  | PressLoad (program : SavedProgram).

Section Handlers.

Context {host : JsHost}.

(** [updateSensors], run by the effect on [position] and
    [currentEnvironment]: the value it passes to [setSensors]. [fuel]
    is the fuel of each of the three calls of [calculateDistance]. *)
Definition updateSensors (fuel : nat) (st : State) : option Sensors :=
  let position := position st in
  let calculateDistance := calculateDistance fuel (currentEnvironment st) in
  match calculateDistance (x position) (y position) (angle position) with
  | None => None
  | Some frontDistance =>
      match calculateDistance (x position) (y position) (angle position - 90) with
      | None => None
      | Some leftDistance =>
          match calculateDistance (x position) (y position) (angle position + 90) with
          | None => None
          | Some rightDistance =>
              Some (mkSensors (Math_round frontDistance)
                      (Math_round leftDistance) (Math_round rightDistance))
          end
      end
  end.

(** [moveRobot] as a handler: [setPosition] with the updater, which
    tests collisions against the environment of the latest render. *)
Definition moveRobotState (a : Action) (st : State) : State :=
  setPosition (moveRobot (currentEnvironment st) a (position st)) st.

(** The body [saveProgram] posts to the service:
    [{ name: programName, commands, environment: currentEnvironment.name }].
    The test of the trimmed name and the request itself are left out. *)
Definition saveProgram_body (programName : string) (st : State) : SavedProgram :=
  mkSavedProgram programName (commands st) (name (currentEnvironment st)).

Definition handle (e : Event) (st : State) : State :=
  match e with
  | PressMove a => moveRobotState a st
  | PressAdd now a => addCommand now a st
  | PressExecute => executeCommands st
  | TimerFires => timerFires st
  | PressClear => clearCommands st
  | PressReset => resetRobot st
  | PressEnvironment i =>
      match nth_error ENVIRONMENTS i with
      | Some env => selectEnvironment env st
      | None => st
      end
  | PressLoad program => loadProgram program st
  end.

(** The state after a sequence of events, from a given state and from
    the mounted component. A button the markup shows as disabled is not
    taken out: the handlers are run whenever they are called. *)
Definition handleAll (events : list Event) (st : State) : State :=
  fold_left (fun st e => handle e st) events st.

Definition runEvents (events : list Event) : State :=
  handleAll events initialState.

(** The pose lies strictly between the four walls. *)
Definition insideArena (p : Position) : Prop :=
  (5 < x p /\ x p < CANVAS_WIDTH - 5) /\ (5 < y p /\ y p < CANVAS_HEIGHT - 5).

(** The environment is one of the catalogue, the executor is marked as
    running exactly while a timer is pending, and a pending timer was
    armed under the environment that is active. *)
Definition consistent (st : State) : Prop :=
  In (currentEnvironment st) ENVIRONMENTS
  /\ (isExecuting st = true <-> executionRef st <> None)
  /\ (forall t, executionRef st = Some t -> timeout_env t = currentEnvironment st).

End Handlers.

(** ** The motion integrator in double precision *)

Module Double.

Import PrimFloat FloatOps SpecFloat.
#[local] Open Scope float_scope.
#[local] Set Warnings "-inexact-float".

(** [a % b] on doubles: the remainder of the truncated division, exact,
    with the sign of the dividend; NaN when the dividend is not finite
    or the divisor is zero, the dividend itself when the divisor is
    infinite. With [|a| = ma * 2^ea] and [|b| = mb * 2^eb], it is the
    remainder of the two integers over the common exponent. *)
Definition js_rem (a b : float) : float :=
  match Prim2SF a, Prim2SF b with
  | S754_nan, _ => nan
  | _, S754_nan => nan
  | S754_infinity _, _ => nan
  | _, S754_zero _ => nan
  | S754_zero _, _ => a
  | S754_finite _ _ _, S754_infinity _ => a
  | S754_finite sa ma ea, S754_finite _ mb eb =>
      let e := Z.min ea eb in
      let A := (Zpos ma * 2 ^ (ea - e))%Z in
      let B := (Zpos mb * 2 ^ (eb - e))%Z in
      match Z.rem A B with
      | Zpos r => SF2Prim (S754_finite sa r e)
      | _ => SF2Prim (S754_zero sa)
      end
  end.

Class JsHost : Type := {
  Math_cos : float -> float;
  Math_sin : float -> float;
  Math_PI : float
}.

(** A host to run the model on: cosine and sine as their Taylor
    polynomials of degree 8 and 9. *)
Definition sampleHost : JsHost := {|
  Math_cos := fun r =>
    1 - r * r / 2 + r * r * r * r / 24 - r * r * r * r * r * r / 720
      + r * r * r * r * r * r * r * r / 40320;
  Math_sin := fun r =>
    r - r * r * r / 6 + r * r * r * r * r / 120
      - r * r * r * r * r * r * r / 5040
      + r * r * r * r * r * r * r * r * r / 362880;
  Math_PI := 3.141592653589793
|}.

Record Position : Type := mkPosition {
  x : float;
  y : float;
  angle : float
}.

Record Obstacle : Type := mkObstacle {
  obs_x : float;
  obs_y : float;
  width : float;
  height : float
}.

Record Environment : Type := mkEnvironment {
  name : string;
  obstacles : list Obstacle
}.

Fixpoint checkCollision_loop (obs : list Obstacle) (newX newY : float) : bool :=
  match obs with
  | [] => false
  | obstacle :: rest =>
      if (obs_x obstacle <=? newX)
         && (newX <=? obs_x obstacle + width obstacle)
         && (obs_y obstacle <=? newY)
         && (newY <=? obs_y obstacle + height obstacle)
      then true
      else checkCollision_loop rest newX newY
  end.

Definition checkCollision (env : Environment) (newX newY : float) : bool :=
  checkCollision_loop (obstacles env) newX newY.

Definition moveRobot {host : JsHost} (env : Environment) (a : Action)
    (prev : Position) : Position :=
  let newPos := prev in
  let moveDistance := 5 in
  match a with
  | forward =>
      let newX := x prev + Math_cos ((angle prev * Math_PI) / 180) * moveDistance in
      let newY := y prev + Math_sin ((angle prev * Math_PI) / 180) * moveDistance in
      if negb (checkCollision env newX newY)
      then mkPosition newX newY (angle newPos)
      else newPos
  | backward =>
      let backX := x prev - Math_cos ((angle prev * Math_PI) / 180) * moveDistance in
      let backY := y prev - Math_sin ((angle prev * Math_PI) / 180) * moveDistance in
      if negb (checkCollision env backX backY)
      then mkPosition backX backY (angle newPos)
      else newPos
  | left => mkPosition (x newPos) (y newPos) (js_rem (angle prev - 15 + 360) 360)
  | right => mkPosition (x newPos) (y newPos) (js_rem (angle prev + 15) 360)
  | stop => newPos
  end.


(** "Open Space" on a 400x400 canvas. *)
Definition openSpace : Environment :=
  mkEnvironment "Open Space"
    [ mkObstacle 0 0 400 5;
      mkObstacle 0 395 400 5;
      mkObstacle 0 0 5 400;
      mkObstacle 395 0 5 400 ].

(** The pose (200, 200) with heading 0.1. *)
Definition tenthOfADegree : Position := mkPosition 200 200 0.1.

(** What 0.1 comes back as after [left] and [right]. *)
Definition tenthOfADegreeBack : float := 0.10000000000002274.

End Double.

(** ** Vocabulary of the statements *)

(** The point [(px, py)] lies in the rectangle of [o], edges included. *)
Definition inside (o : Obstacle) (px py : Q) : Prop :=
  obs_x o <= px <= obs_x o + width o /\ obs_y o <= py <= obs_y o + height o.

(** Right turns minus left turns in a list of actions. *)
Fixpoint netTurns (acts : list Action) : Z :=
  match acts with
  | [] => 0
  | right :: rest => (1 + netTurns rest)%Z
  | left :: rest => (-1 + netTurns rest)%Z
  | _ :: rest => netTurns rest
  end.

(** The cosine and the sine of the host never leave [-1, 1]. *)
Definition unitTrig (host : JsHost) : Prop :=
  forall r : Q, (-1 <= Math_cos r /\ Math_cos r <= 1)
                /\ (-1 <= Math_sin r /\ Math_sin r <= 1).

(** ** Concrete inputs *)

Definition queueOf (acts : list Action) : list Command :=
  map (fun a => mkCommand "" a None) acts.

(** The scenario of the specification: the robot at the centre of
    "Open Space" on a 400x400 canvas, heading 0, with the queue
    forward, forward, left, stop, right. *)
Definition stopQueueState : State :=
  setCommands (queueOf [forward; forward; left; stop; right])
    (@initialState sampleHost).

(** "Open Space" on the 400x400 canvas: the four walls, 5 thick. *)
Definition openSpace : Environment := currentEnvironment stopQueueState.

(** An executor in the middle of a run: the timer of [left] is armed
    and [right] is still to come. *)
Definition runningState : State :=
  mkState (mkPosition 205 200 0) (queueOf [forward; left; right]) true openSpace
    (Some (mkTimeout left (queueOf [right]) openSpace)).

(** A saved program whose environment is not in the catalogue. *)
Definition strayProgram : SavedProgram :=
  mkSavedProgram "demo" (queueOf [forward; right]) "nonexistent".

(** The sample host with its cosine and sine cut off at -1 and 1. *)
Definition clamp1 (q : Q) : Q := Qmax (-1) (Qmin 1 q).

Definition clampedHost : JsHost := {|
  Math_cos := fun r => clamp1 (sample_cos r);
  Math_sin := fun r => clamp1 (sample_sin r);
  Math_PI := 3141592653589793 # 1000000000000000;
  screenWidth := 432
|}.

(** A host with a window 552 wide, so a canvas 520 wide. *)
Definition tabletHost : JsHost := {|
  Math_cos := sample_cos;
  Math_sin := sample_sin;
  Math_PI := 3141592653589793 # 1000000000000000;
  screenWidth := 552
|}.

(** "Open Space" with one more obstacle, a block 20 wide at x = 300. *)
Definition openSpaceWithBlock : Environment :=
  mkEnvironment "Open Space" (obstacles openSpace ++ [mkObstacle 300 180 20 40]).

(** A session: two forwards by hand, a queue of three commands, a run
    interrupted by a change of environment after its first command. *)
Definition sampleSession : list Event :=
  [ PressMove forward; PressMove forward; PressMove right;
    PressAdd "1" forward; PressAdd "2" left; PressAdd "3" forward;
    PressExecute; TimerFires; PressEnvironment 1; TimerFires;
    PressExecute; TimerFires; TimerFires ].


(** * Properties *)

(** ** Numbers *)

Lemma Qlt_bool_iff (a b : Q) : Qlt_bool a b = true <-> a < b.
Proof.
  unfold Qlt_bool. rewrite negb_true_iff. split.
  - intro H. apply Qnot_le_lt. intro Hle.
    apply Qle_bool_iff in Hle. congruence.
  - intro H. destruct (Qle_bool b a) eqn:E; [|reflexivity].
    apply Qle_bool_iff in E. exfalso. exact (Qlt_not_le _ _ H E).
Qed.

Lemma Qlt_bool_false_iff (a b : Q) : Qlt_bool a b = false <-> b <= a.
Proof.
  unfold Qlt_bool. rewrite negb_false_iff. apply Qle_bool_iff.
Qed.

(** On a dividend that is not negative, truncation is the floor. *)
Lemma Qtrunc_nonneg_floor (q : Q) : 0 <= q -> Qtrunc q = Qfloor q.
Proof.
  destruct q as [n d]. unfold Qle, Qtrunc, Qfloor. simpl. intro H.
  apply Z.quot_div_nonneg; lia.
Qed.

(** [a % 360] of a dividend that is not negative lies in [0, 360). *)
Lemma js_rem_360_range (a : Q) : 0 <= a -> 0 <= js_rem a 360 /\ js_rem a 360 < 360.
Proof.
  intro Ha. unfold js_rem.
  assert (Hq : 0 <= a / 360).
  { apply Qle_shift_div_l; [reflexivity|]. lra. }
  rewrite (Qtrunc_nonneg_floor Hq).
  pose proof (Qfloor_le (a / 360)) as Hlo.
  pose proof (Qlt_floor (a / 360)) as Hhi.
  rewrite inject_Z_plus in Hhi.
  assert (Ha360 : a == 360 * (a / 360)) by (field).
  set (f := inject_Z (Qfloor (a / 360))) in *.
  set (q := a / 360) in *.
  change (inject_Z 1) with 1 in Hhi.
  split; lra.
Qed.

(** [a % b] differs from [a] by a whole multiple of [b]. *)
Lemma js_rem_congruent (a b : Q) : exists k : Z, js_rem a b == a + b * inject_Z k.
Proof.
  exists (- Qtrunc (a / b))%Z. unfold js_rem.
  rewrite inject_Z_opp. ring.
Qed.

(** ** Collision test *)

Lemma inside_test (o : Obstacle) (px py : Q) :
  Qle_bool (obs_x o) px && Qle_bool px (obs_x o + width o)
    && Qle_bool (obs_y o) py && Qle_bool py (obs_y o + height o) = true
  <-> inside o px py.
Proof.
  unfold inside. rewrite !andb_true_iff, !Qle_bool_iff. tauto.
Qed.

Lemma checkCollision_loop_spec (obs : list Obstacle) (px py : Q) :
  checkCollision_loop obs px py = true <-> exists o, In o obs /\ inside o px py.
Proof.
  induction obs as [|o rest IH]; simpl.
  - split; [discriminate | intros (o & [] & _)].
  - destruct (Qle_bool (obs_x o) px && Qle_bool px (obs_x o + width o)
              && Qle_bool (obs_y o) py && Qle_bool py (obs_y o + height o)) eqn:E.
    + split; [intros _ | reflexivity].
      exists o. split; [now left | now apply inside_test].
    + rewrite IH. split.
      * intros (o' & Hin & Hins). exists o'. split; [now right | assumption].
      * intros (o' & [Heq | Hin] & Hins).
        -- subst o'. apply inside_test in Hins. congruence.
        -- exists o'. split; assumption.
Qed.

Lemma checkCollision_loop_perm (obs obs' : list Obstacle) (px py : Q) :
  Permutation obs obs' ->
  checkCollision_loop obs' px py = checkCollision_loop obs px py.
Proof.
  intro HP. apply eq_true_iff_eq. rewrite !checkCollision_loop_spec.
  split; intros (o & Hin & Hins); exists o; split; try assumption.
  - apply Permutation_sym in HP. exact (Permutation_in _ HP Hin).
  - exact (Permutation_in _ HP Hin).
Qed.

(** C3: [checkCollision] answers true exactly when some obstacle of the
    environment contains the point, bounds included; so a point on the
    boundary of an obstacle is blocked, and listing the obstacles in
    another order gives the same answer. *)
Theorem C3_checkCollision_inclusive_any_order (env : Environment) (px py : Q) :
  (checkCollision env px py = true <->
     exists o, In o (obstacles env) /\
       obs_x o <= px <= obs_x o + width o /\
       obs_y o <= py <= obs_y o + height o)
  /\ (forall o, In o (obstacles env) ->
        (px == obs_x o \/ px == obs_x o + width o) ->
        obs_y o <= py <= obs_y o + height o ->
        0 <= width o ->
        checkCollision env px py = true)
  /\ (forall o, In o (obstacles env) ->
        (py == obs_y o \/ py == obs_y o + height o) ->
        obs_x o <= px <= obs_x o + width o ->
        0 <= height o ->
        checkCollision env px py = true)
  /\ (forall obs', Permutation (obstacles env) obs' ->
        checkCollision (mkEnvironment (name env) obs') px py
        = checkCollision env px py).
Proof.
  unfold checkCollision. split; [apply checkCollision_loop_spec|].
  split; [|split].
  - intros o Hin Hx Hy Hw. apply checkCollision_loop_spec.
    exists o. split; [assumption|]. unfold inside.
    split; [|assumption]. destruct Hx as [Hx | Hx]; rewrite Hx; split; lra.
  - intros o Hin Hy Hx Hh. apply checkCollision_loop_spec.
    exists o. split; [assumption|]. unfold inside.
    split; [assumption|]. destruct Hy as [Hy | Hy]; rewrite Hy; split; lra.
  - intros obs' HP. simpl. now apply checkCollision_loop_perm.
Qed.

(** ** Motion integrator *)

Section MotionFacts.

Context {host : JsHost}.

(** What each action does to the heading, whatever the environment. *)
Lemma moveRobot_angle (env : Environment) (a : Action) (prev : Position) :
  angle (moveRobot env a prev) =
  match a with
  | left => js_rem (angle prev - 15 + 360) 360
  | right => js_rem (angle prev + 15) 360
  | _ => angle prev
  end.
Proof.
  destruct a; simpl; try reflexivity;
    match goal with |- context [checkCollision ?e ?u ?v] =>
      destruct (checkCollision e u v) end; reflexivity.
Qed.

(** A turn or a stop leaves the coordinates alone. *)
Lemma moveRobot_turn_xy (env : Environment) (a : Action) (prev : Position) :
  a = left \/ a = right \/ a = stop ->
  x (moveRobot env a prev) = x prev /\ y (moveRobot env a prev) = y prev.
Proof.
  intros [-> | [-> | ->]]; split; reflexivity.
Qed.

Lemma moveRobot_stop (env : Environment) (prev : Position) :
  moveRobot env stop prev = prev.
Proof. reflexivity. Qed.

(** C2: a [forward] whose target point is blocked returns the pose it
    was given, with the same x, y and heading; so does a [backward]
    whose target point, taken against the heading, is blocked. *)
Theorem C2_blocked_move_is_identity (env : Environment) (prev : Position) :
  (checkCollision env
     (x prev + Math_cos ((angle prev * Math_PI) / 180) * 5)
     (y prev + Math_sin ((angle prev * Math_PI) / 180) * 5) = true ->
   moveRobot env forward prev = prev)
  /\ (checkCollision env
        (x prev - Math_cos ((angle prev * Math_PI) / 180) * 5)
        (y prev - Math_sin ((angle prev * Math_PI) / 180) * 5) = true ->
      moveRobot env backward prev = prev).
Proof.
  split; intro Hblocked; simpl; rewrite Hblocked; reflexivity.
Qed.

(** C10: if the position of the pose is not blocked, the position of the
    pose after any of the five actions is not blocked either. *)
Theorem C10_moveRobot_preserves_free_position
    (env : Environment) (a : Action) (prev : Position) :
  checkCollision env (x prev) (y prev) = false ->
  checkCollision env (x (moveRobot env a prev)) (y (moveRobot env a prev)) = false.
Proof.
  intro Hfree. destruct a; simpl; try assumption;
    match goal with |- context [negb (checkCollision ?e ?u ?v)] =>
      destruct (checkCollision e u v) eqn:Hc end; simpl; assumption.
Qed.

(** C9: a heading in [0, 360) stays in [0, 360) under each of the five
    actions. *)
Theorem C9_heading_stays_normalized
    (env : Environment) (a : Action) (prev : Position) :
  0 <= angle prev /\ angle prev < 360 ->
  0 <= angle (moveRobot env a prev) /\ angle (moveRobot env a prev) < 360.
Proof.
  intros [Hlo Hhi]. rewrite moveRobot_angle.
  destruct a; try (split; assumption); apply js_rem_360_range; lra.
Qed.

End MotionFacts.

(** ** The two turns in double precision *)

Module DoubleFacts.

Import PrimFloat.
#[local] Open Scope float_scope.
#[local] Set Warnings "-inexact-float".


(** From heading 0.1 the code goes to 345.1 and comes back to
    0.10000000000002274: the sums 0.1 - 15 + 360 and 345.1 + 15 round. *)
Example Double_left_right_tenth (host : Double.JsHost) :
  Double.angle (Double.moveRobot Double.openSpace left Double.tenthOfADegree)
    = 345.1
  /\ Double.angle
       (Double.moveRobot Double.openSpace right
          (Double.moveRobot Double.openSpace left Double.tenthOfADegree))
     = Double.tenthOfADegreeBack
  /\ PrimFloat.eqb Double.tenthOfADegreeBack 0.1 = false.
Proof. vm_compute. repeat split. Qed.




End DoubleFacts.

(** ** Range sensor *)

Section SensorFacts.

Context {host : JsHost}.

Variable env : Environment.
Variable heading : Q.

Let dx : Q := Math_cos ((heading * Math_PI) / 180) * 5.
Let dy : Q := Math_sin ((heading * Math_PI) / 180) * 5.

(** The probes seen from the point reached after one step are the later
    probes seen from the starting point. *)
Lemma probe_shift (k : nat) (origin delta : Q) :
  probe k (origin + delta) delta = probe (S k) origin delta.
Proof.
  induction k as [|k IH]; simpl; [reflexivity|].
  rewrite IH. reflexivity.
Qed.

(** With [n] steps of 5 left before 200 and more fuel than that, the
    loop returns, and what it returns is not below the distance it
    started from. *)
Lemma calculateDistance_loop_returns (n : nat) :
  forall (fuel : nat) (distance testX testY : Q),
    (n < fuel)%nat ->
    200 - 5 * inject_Z (Z.of_nat n) <= distance ->
    exists r, calculateDistance_loop fuel env heading distance testX testY = Some r
              /\ distance <= r.
Proof.
  induction n as [|n IH]; intros fuel distance testX testY Hfuel Hd;
    (destruct fuel as [|fuel]; [lia|]); simpl.
  - change (inject_Z (Z.of_nat 0)) with 0 in Hd.
    assert (Hdone : Qlt_bool distance 200 = false)
      by (apply Qlt_bool_false_iff; lra).
    rewrite Hdone. exists distance. split; [reflexivity | apply Qle_refl].
  - destruct (Qlt_bool distance 200); [|exists distance; split; [reflexivity | apply Qle_refl]].
    destruct (checkCollision env _ _);
      [exists distance; split; [reflexivity | apply Qle_refl]|].
    rewrite Nat2Z.inj_succ, <- Z.add_1_r, inject_Z_plus in Hd.
    change (inject_Z 1) with 1 in Hd.
    destruct (IH fuel (distance + 5)
                (testX + Math_cos (heading * Math_PI / 180) * 5)
                (testY + Math_sin (heading * Math_PI / 180) * 5))
      as (r & Hr & Hle); [lia | lra |].
    exists r. split; [assumption | lra].
Qed.

(** If moreover none of the next [n] probes is blocked, the loop is left
    by its test: the distance has reached 200. *)
Lemma calculateDistance_loop_free (n : nat) :
  forall (fuel : nat) (distance testX testY : Q),
    (n < fuel)%nat ->
    200 - 5 * inject_Z (Z.of_nat n) <= distance ->
    (forall k, (1 <= k <= n)%nat ->
       checkCollision env (probe k testX dx) (probe k testY dy) = false) ->
    exists r, calculateDistance_loop fuel env heading distance testX testY = Some r
              /\ 200 <= r.
Proof.
  induction n as [|n IH]; intros fuel distance testX testY Hfuel Hd Hfree;
    (destruct fuel as [|fuel]; [lia|]); simpl.
  - change (inject_Z (Z.of_nat 0)) with 0 in Hd.
    assert (Hdone : Qlt_bool distance 200 = false)
      by (apply Qlt_bool_false_iff; lra).
    rewrite Hdone. exists distance. split; [reflexivity | lra].
  - destruct (Qlt_bool distance 200) eqn:Hlt.
    + pose proof (Hfree 1%nat ltac:(lia)) as H1. simpl in H1.
      fold dx dy. rewrite H1.
      rewrite Nat2Z.inj_succ, <- Z.add_1_r, inject_Z_plus in Hd.
      change (inject_Z 1) with 1 in Hd.
      apply IH; [lia | lra |].
      intros k Hk. rewrite !probe_shift. apply Hfree. lia.
    + apply Qlt_bool_false_iff in Hlt.
      exists distance. split; [reflexivity | assumption].
Qed.

End SensorFacts.

(** C4: given fuel for the 41 evaluations of its loop test,
    [calculateDistance] returns a distance, the distance lies in
    [0, 200], and it is 200 when none of the 40 probe points, 5 apart
    along the heading, is blocked. *)
Theorem C4_calculateDistance_range {host : JsHost}
    (fuel : nat) (env : Environment) (x0 y0 heading : Q) :
  (41 <= fuel)%nat ->
  exists d,
    calculateDistance fuel env x0 y0 heading = Some d
    /\ 0 <= d /\ d <= 200
    /\ ((forall k, (1 <= k <= 40)%nat ->
           checkCollision env (probeX x0 heading k) (probeY y0 heading k) = false) ->
        d == 200).
Proof.
  intro Hfuel. unfold calculateDistance.
  destruct (@calculateDistance_loop_returns host env heading 40 fuel 0 x0 y0)
    as (r & Hr & Hle); [lia | vm_compute; discriminate |].
  rewrite Hr. exists (Math_min r 200). unfold Math_min.
  split; [reflexivity|]. split; [|split].
  - apply Q.min_glb; [assumption | discriminate].
  - apply Q.le_min_r.
  - intro Hfree.
    destruct (@calculateDistance_loop_free host env heading 40 fuel 0 x0 y0)
      as (r' & Hr' & Hge); [lia | vm_compute; discriminate | exact Hfree |].
    rewrite Hr in Hr'. injection Hr' as <-.
    apply Q.min_r. assumption.
Qed.

(** ** Command-queue executor *)

Section ExecutorFacts.

Context {host : JsHost}.

(** Once [executeCommands_loop] has armed the timer of the first of the
    commands [cs], one firing per command applies them all, in order,
    and leaves the executor idle with no timer pending. *)
Lemma drain_executeCommands_loop (env : Environment) (cs : list Command) :
  forall st : State,
    executionRef st = None ->
    drain (List.length cs) (executeCommands_loop env cs st)
    = mkState (applyActions env (map action cs) (position st))
        (commands st) false (currentEnvironment st) None.
Proof.
  induction cs as [|c rest IH]; intros st Href; simpl.
  - unfold setIsExecuting. rewrite Href. reflexivity.
  - unfold timerFires. simpl. rewrite IH by reflexivity. reflexivity.
Qed.

(** An undisturbed run from an idle executor with a queue that is not
    empty applies every queued action in order, whatever the actions
    are, and ends idle. *)
Lemma runProgram_applies_every_command (st : State) :
  isExecuting st = false ->
  commands st <> [] ->
  runProgram st
  = mkState
      (applyActions (currentEnvironment st) (map action (commands st)) (position st))
      (commands st) false (currentEnvironment st) None.
Proof.
  intros Hidle Hne. unfold runProgram, executeCommands. rewrite Hidle.
  destruct (commands st) as [|c rest] eqn:Hcs; [congruence|].
  simpl. unfold timerFires. simpl.
  rewrite drain_executeCommands_loop by reflexivity.
  simpl. rewrite Hcs. reflexivity.
Qed.

Lemma applyActions_angle (env : Environment) (acts : list Action) :
  forall p : Position,
    angle (applyActions env acts p)
    = fold_left (fun h a => match a with
                            | left => js_rem (h - 15 + 360) 360
                            | right => js_rem (h + 15) 360
                            | _ => h
                            end) acts (angle p).
Proof.
  unfold applyActions.
  induction acts as [|a acts IH]; intro p; simpl; [reflexivity|].
  rewrite IH, moveRobot_angle. reflexivity.
Qed.

(** C1, as the code has it: from an idle executor, running the queue
    forward, forward, left, stop, right applies all five actions in
    order; [stop] goes through [moveRobot] like the others and changes
    nothing, the [right] after it is applied, so the pose reached is the
    one of forward, forward, left, right; the executor ends idle. *)
Theorem C1_stop_does_not_halt_the_queue (st : State) :
  isExecuting st = false ->
  map action (commands st) = [forward; forward; left; stop; right] ->
  let env := currentEnvironment st in
  position (runProgram st)
    = applyActions env [forward; forward; left; stop; right] (position st)
  /\ position (runProgram st)
    = moveRobot env right (applyActions env [forward; forward; left] (position st))
  /\ isExecuting (runProgram st) = false.
Proof.
  intros Hidle Hq env.
  rewrite runProgram_applies_every_command.
  - simpl. rewrite Hq. repeat split.
  - assumption.
  - intro Hnil. rewrite Hnil in Hq. discriminate.
Qed.

(** C6: [executeCommands] called while the executor is running, or
    with an empty queue, returns the state it was given: no timer is
    armed, the pose, the queue and the running flag are as before. *)
Theorem C6_execute_is_noop_when_running_or_empty (st : State) :
  isExecuting st = true \/ commands st = [] ->
  executeCommands st = st.
Proof.
  intros [Hrun | Hempty]; unfold executeCommands.
  - rewrite Hrun, orb_true_r. reflexivity.
  - rewrite Hempty. reflexivity.
Qed.

(** C7: [resetRobot] puts the pose at the centre of the canvas with
    heading 0, makes the executor idle with no timer pending (so no
    later firing changes anything), and leaves the queue and the
    environment as they were. *)
Theorem C7_resetRobot_keeps_the_queue (st : State) :
  position (resetRobot st) = mkPosition (CANVAS_WIDTH / 2) (CANVAS_HEIGHT / 2) 0
  /\ isExecuting (resetRobot st) = false
  /\ executionRef (resetRobot st) = None
  /\ (forall n, drain n (resetRobot st) = resetRobot st)
  /\ commands (resetRobot st) = commands st
  /\ currentEnvironment (resetRobot st) = currentEnvironment st.
Proof.
  repeat split. intros [|n]; reflexivity.
Qed.

Lemma findEnvironment_unknown (n : string) :
  (forall e, In e ENVIRONMENTS -> name e <> n) -> findEnvironment n = None.
Proof.
  intro Habsent. unfold findEnvironment.
  destruct (find (fun e => String.eqb (name e) n) ENVIRONMENTS) as [e|] eqn:Hfind;
    [|reflexivity].
  apply find_some in Hfind. destruct Hfind as [Hin Heq].
  apply String.eqb_eq in Heq. exfalso. exact (Habsent e Hin Heq).
Qed.

(** C8: when no environment of the catalogue has the name a program
    asks for, the look-up finds nothing and [loadProgram] keeps the
    environment that was active. *)
Theorem C8_unknown_environment_keeps_current
    (program : SavedProgram) (st : State) :
  (forall e, In e ENVIRONMENTS -> name e <> prog_environment program) ->
  findEnvironment (prog_environment program) = None
  /\ currentEnvironment (loadProgram program st) = currentEnvironment st.
Proof.
  intro Habsent. pose proof (findEnvironment_unknown Habsent) as Hnone.
  split; [assumption|]. unfold loadProgram. rewrite Hnone. reflexivity.
Qed.

End ExecutorFacts.

(** * The theorems at concrete inputs *)

(** The run of the scenario on the sample host, step by step in the
    code: (200,200,0), forward to (205,200,0), forward to (210,200,0),
    left to heading 345, stop changes nothing, right back to heading 0. *)
Example stopQueue_run :
  let p := position (@runProgram sampleHost stopQueueState) in
  x p == 210 /\ y p == 200 /\ angle p == 0
  /\ isExecuting (@runProgram sampleHost stopQueueState) = false.
Proof. vm_compute. repeat split. Qed.

Example stopQueue_first_three :
  let p := @applyActions sampleHost openSpace [forward; forward; left]
             (position stopQueueState) in
  x p == 210 /\ y p == 200 /\ angle p == 345.
Proof. vm_compute. repeat split. Qed.

(** Ten forwards from the centre of "Open Space" end at x = 250; fifty
    end at x = 390, the last point whose next step, 395, is not on the
    right wall. *)
Example ten_forwards :
  let st := setCommands (queueOf (repeat forward 10)) (@initialState sampleHost) in
  x (position (@runProgram sampleHost st)) == 250
  /\ y (position (@runProgram sampleHost st)) == 200.
Proof. vm_compute. split; reflexivity. Qed.

Example fifty_forwards :
  let st := setCommands (queueOf (repeat forward 50)) (@initialState sampleHost) in
  x (position (@runProgram sampleHost st)) == 390.
Proof. vm_compute. reflexivity. Qed.

(** C1 as stated fails: on the scenario, whatever the host computes for
    cosine and sine, the pose after the run is not the pose after the
    first three actions; the heading is 0, not 345. *)
Lemma C1_stop_halts_counterexample :
  ~ (exists host : JsHost,
       position (@runProgram host stopQueueState)
       = @applyActions host openSpace [forward; forward; left]
           (position stopQueueState)).
Proof.
  intros [host H]. apply (f_equal angle) in H.
  rewrite runProgram_applies_every_command in H;
    [| reflexivity | discriminate].
  cbn [position] in H. rewrite !applyActions_angle in H.
  vm_compute in H. discriminate H.
Qed.

(** The amended C1 on the scenario. *)
Lemma C1_stop_does_not_halt_witness :
  position (@runProgram sampleHost stopQueueState)
    = @applyActions sampleHost openSpace [forward; forward; left; stop; right]
        (position stopQueueState)
  /\ position (@runProgram sampleHost stopQueueState)
    = @moveRobot sampleHost openSpace right
        (@applyActions sampleHost openSpace [forward; forward; left]
           (position stopQueueState))
  /\ isExecuting (@runProgram sampleHost stopQueueState) = false.
Proof.
  apply (@C1_stop_does_not_halt_the_queue sampleHost stopQueueState);
    reflexivity.
Defined.

(** At (390,200) heading 0 the point ahead, (395,200), is on the edge of
    the right wall; at (10,200) the point behind, (5,200), is on the edge
    of the left wall. *)
Lemma C2_blocked_move_witness :
  @moveRobot sampleHost openSpace forward (mkPosition 390 200 0)
    = mkPosition 390 200 0
  /\ @moveRobot sampleHost openSpace backward (mkPosition 10 200 0)
    = mkPosition 10 200 0.
Proof.
  split.
  - apply (proj1 (@C2_blocked_move_is_identity sampleHost openSpace
                    (mkPosition 390 200 0))).
    vm_compute. reflexivity.
  - apply (proj2 (@C2_blocked_move_is_identity sampleHost openSpace
                    (mkPosition 10 200 0))).
    vm_compute. reflexivity.
Defined.

(** (395,200) lies on the left edge of the right wall of "Open Space". *)
Lemma C3_boundary_witness : checkCollision openSpace 395 200 = true.
Proof.
  apply (proj1 (proj2 (C3_checkCollision_inclusive_any_order openSpace 395 200))
           (mkObstacle 395 0 5 400)).
  - simpl. tauto.
  - left. reflexivity.
  - split; discriminate.
  - discriminate.
Defined.

(** C4 with exactly the fuel it asks for. *)
Lemma C4_calculateDistance_witness :
  exists d,
    @calculateDistance sampleHost 41 openSpace 200 200 0 = Some d
    /\ 0 <= d /\ d <= 200
    /\ ((forall k, (1 <= k <= 40)%nat ->
           checkCollision openSpace (@probeX sampleHost 200 0 k)
             (@probeY sampleHost 200 0 k) = false) ->
        d == 200).
Proof.
  apply (@C4_calculateDistance_range sampleHost 41 openSpace 200 200 0).
  lia.
Defined.

(** From the centre of "Open Space", heading 0, the 39th probe is on the
    right wall: the reading is 190. With no obstacle it is 200. *)
Example calculateDistance_openSpace :
  @calculateDistance sampleHost 41 openSpace 200 200 0 = Some 190.
Proof. vm_compute. reflexivity. Qed.

Example calculateDistance_no_obstacle :
  @calculateDistance sampleHost 41 (mkEnvironment "" []) 200 200 0 = Some 200.
Proof. vm_compute. reflexivity. Qed.

(** [executeCommands] in the middle of a run, and on the empty queue of
    the initial state. *)
Lemma C6_execute_noop_witness :
  executeCommands runningState = runningState
  /\ executeCommands (@initialState sampleHost) = @initialState sampleHost.
Proof.
  split.
  - apply (@C6_execute_is_noop_when_running_or_empty runningState).
    left. reflexivity.
  - apply (@C6_execute_is_noop_when_running_or_empty (@initialState sampleHost)).
    right. reflexivity.
Defined.

(** Loading a program that asks for "nonexistent" in the middle of a
    run keeps "Open Space". *)
Lemma C8_unknown_environment_witness :
  @findEnvironment sampleHost "nonexistent" = None
  /\ currentEnvironment (@loadProgram sampleHost strayProgram runningState)
     = openSpace.
Proof.
  apply (@C8_unknown_environment_keeps_current sampleHost strayProgram runningState).
  intros e Hin. simpl in Hin.
  destruct Hin as [<- | [<- | [<- | []]]]; discriminate.
Defined.

(** From heading 350, right gives 5. *)
Lemma C9_heading_witness :
  0 <= angle (@moveRobot sampleHost openSpace right (mkPosition 200 200 350))
  /\ angle (@moveRobot sampleHost openSpace right (mkPosition 200 200 350)) < 360.
Proof.
  apply (@C9_heading_stays_normalized sampleHost openSpace right
           (mkPosition 200 200 350)).
  split; [discriminate | reflexivity].
Defined.

(** (390,200) is free; the forward step from it is vetoed and the robot
    stays on a free point. *)
Lemma C10_free_position_witness :
  checkCollision openSpace
    (x (@moveRobot sampleHost openSpace forward (mkPosition 390 200 0)))
    (y (@moveRobot sampleHost openSpace forward (mkPosition 390 200 0))) = false.
Proof.
  apply (@C10_moveRobot_preserves_free_position sampleHost openSpace forward
           (mkPosition 390 200 0)).
  vm_compute. reflexivity.
Defined.

(** * Further properties of the code *)

(** ** Runs of the executor *)

Section RunFacts.

Context {host : JsHost}.

(** The state after [k] of the timers of a run have fired. *)
Lemma drain_executeCommands_loop_partial (env : Environment) (cs : list Command) :
  forall (k : nat) (st : State),
    (k <= List.length cs)%nat ->
    executionRef st = None ->
    isExecuting st = true ->
    drain k (executeCommands_loop env cs st)
    = mkState (applyActions env (map action (firstn k cs)) (position st))
        (commands st) (k <? List.length cs)%nat (currentEnvironment st)
        (match nth_error cs k with
         | Some c => Some (mkTimeout (action c) (skipn (S k) cs) env)
         | None => None
         end).
Proof.
  induction cs as [|c rest IH]; intros k st Hk Href Hrun.
  - simpl in Hk. assert (k = 0)%nat by lia. subst k. simpl.
    unfold setIsExecuting. rewrite Href. reflexivity.
  - destruct k as [|k].
    + simpl. unfold setExecutionRef. rewrite Hrun. reflexivity.
    + simpl in Hk. cbn [drain executeCommands_loop setExecutionRef executionRef].
      unfold timerFires. cbn [executionRef setExecutionRef].
      rewrite IH; [reflexivity | lia | reflexivity | exact Hrun].
Qed.

Lemma run_prefix (st : State) (k : nat) :
  isExecuting st = false ->
  (k <= List.length (commands st))%nat ->
  commands st <> [] ->
  drain k (executeCommands st)
  = mkState
      (applyActions (currentEnvironment st)
         (firstn k (map action (commands st))) (position st))
      (commands st) (k <? List.length (commands st))%nat (currentEnvironment st)
      (match nth_error (commands st) k with
       | Some c => Some (mkTimeout (action c) (skipn (S k) (commands st))
                           (currentEnvironment st))
       | None => None
       end).
Proof.
  intros Hidle Hk Hne. unfold executeCommands. rewrite Hidle.
  destruct (commands st) as [|c rest] eqn:Hcs; [congruence|].
  cbn [List.length Nat.eqb orb]. rewrite firstn_map.
  destruct k as [|k].
  - cbn. unfold setExecutionRef, setIsExecuting. cbn. rewrite Hcs. reflexivity.
  - cbn [drain executeCommands_loop setExecutionRef executionRef].
    unfold timerFires. cbn [executionRef setExecutionRef timeout_env timeout_rest].
    rewrite drain_executeCommands_loop_partial;
      [| simpl in Hk; lia | reflexivity | reflexivity].
    cbn. rewrite Hcs. reflexivity.
Qed.

(** X1: an undisturbed run from an idle executor with a queue that is
    not empty applies the queued actions in order against the
    environment that was active, ends idle with no timer pending, and
    leaves the queue and the environment as they were; so a second run
    applies the same actions once more from the pose the first reached. *)
Theorem X1_run_keeps_queue_and_repeats (st : State) :
  isExecuting st = false ->
  commands st <> [] ->
  let acts := map action (commands st) in
  let env := currentEnvironment st in
  position (runProgram st) = applyActions env acts (position st)
  /\ commands (runProgram st) = commands st
  /\ currentEnvironment (runProgram st) = env
  /\ isExecuting (runProgram st) = false
  /\ executionRef (runProgram st) = None
  /\ position (runProgram (runProgram st))
     = applyActions env (acts ++ acts) (position st).
Proof.
  intros Hidle Hne acts env.
  pose proof (runProgram_applies_every_command st Hidle Hne) as Hrun.
  rewrite Hrun. cbn [position commands currentEnvironment isExecuting executionRef].
  repeat split.
  rewrite runProgram_applies_every_command; [| reflexivity | exact Hne].
  cbn [position commands currentEnvironment].
  unfold applyActions, acts, env. rewrite fold_left_app. reflexivity.
Qed.

(** X2: after [k] timers of a run have fired, [k] at most the length of
    the queue, exactly the first [k] queued actions have been applied, in
    order, and the executor is still running exactly when some command
    is left. *)
Theorem X2_run_progress (st : State) (k : nat) :
  isExecuting st = false ->
  commands st <> [] ->
  (k <= List.length (commands st))%nat ->
  position (drain k (executeCommands st))
    = applyActions (currentEnvironment st)
        (firstn k (map action (commands st))) (position st)
  /\ isExecuting (drain k (executeCommands st))
     = (k <? List.length (commands st))%nat.
Proof.
  intros Hidle Hne Hk. rewrite run_prefix by assumption. split; reflexivity.
Qed.

(** X3: [clearCommands] in the middle of a run, after [k] of its timers
    have fired: the pose stays where the first [k] actions took it, the
    queue is empty, the executor is idle, no timer that fires later
    changes anything, and [executeCommands] then does nothing. *)
Theorem X3_clear_interrupts_run (st : State) (k m : nat) :
  isExecuting st = false ->
  commands st <> [] ->
  (k <= List.length (commands st))%nat ->
  let cleared := clearCommands (drain k (executeCommands st)) in
  drain m cleared = cleared
  /\ executeCommands cleared = cleared
  /\ position cleared
     = applyActions (currentEnvironment st)
         (firstn k (map action (commands st))) (position st)
  /\ commands cleared = []
  /\ isExecuting cleared = false.
Proof.
  intros Hidle Hne Hk cleared. unfold cleared.
  rewrite run_prefix by assumption.
  repeat split. destruct m; reflexivity.
Qed.

(** Firing the timer [n] times, as events, is [drain n]. *)
Lemma handleAll_timers (n : nat) :
  forall st : State, handleAll (repeat TimerFires n) st = drain n st.
Proof.
  unfold handleAll.
  induction n as [|n IH]; intro st; [reflexivity|].
  cbn [repeat fold_left handle drain].
  destruct (executionRef st) eqn:Href.
  - apply IH.
  - assert (Hsame : timerFires st = st) by (unfold timerFires; rewrite Href; reflexivity).
    rewrite Hsame, IH. destruct n; simpl; [reflexivity | rewrite Href; reflexivity].
Qed.

Lemma handleAll_adds (presses : list (string * Action)) :
  forall st : State,
    handleAll (map (fun p => PressAdd (fst p) (snd p)) presses) st
    = setCommands
        (commands st ++ map (fun p => mkCommand (fst p) (snd p) None) presses) st.
Proof.
  unfold handleAll.
  induction presses as [|p presses IH]; intro st; cbn [map fold_left handle].
  - rewrite app_nil_r. destruct st; reflexivity.
  - rewrite IH. unfold addCommand, setCommands. cbn.
    rewrite <- app_assoc. reflexivity.
Qed.

(** X4: commands are run in the order they were added. From an idle
    executor, adding commands, pressing execute and letting one timer
    fire per queued command applies the actions already queued and then
    the added ones, in the order of the presses. *)
Theorem X4_added_commands_run_in_order
    (st : State) (presses : list (string * Action)) :
  isExecuting st = false ->
  presses <> [] ->
  let events :=
    map (fun p => PressAdd (fst p) (snd p)) presses
    ++ PressExecute
       :: repeat TimerFires (List.length (commands st) + List.length presses) in
  position (handleAll events st)
    = applyActions (currentEnvironment st)
        (map action (commands st) ++ map snd presses) (position st)
  /\ isExecuting (handleAll events st) = false.
Proof.
  intros Hidle Hne events. unfold events, handleAll.
  rewrite fold_left_app. fold (handleAll (map (fun p => PressAdd (fst p) (snd p)) presses) st).
  rewrite handleAll_adds. cbn [fold_left handle].
  match goal with |- context [fold_left ?f (repeat TimerFires ?n) ?s] =>
    change (fold_left f (repeat TimerFires n) s) with (handleAll (repeat TimerFires n) s)
  end.
  rewrite handleAll_timers.
  set (st' := setCommands _ st).
  assert (Hlen : (List.length (commands st) + List.length presses)%nat
                 = List.length (commands st')).
  { unfold st'. cbn. rewrite length_app, length_map. reflexivity. }
  rewrite Hlen. fold (runProgram st').
  rewrite runProgram_applies_every_command.
  - cbn [position isExecuting]. split; [|reflexivity].
    unfold st'. cbn. rewrite map_app, map_map. reflexivity.
  - exact Hidle.
  - unfold st'. cbn. destruct presses; [congruence|].
    intro H. apply app_eq_nil in H. destruct H as [_ H]. discriminate H.
Qed.

End RunFacts.

(** ** Headings *)

(** Two numbers of [0, 360) that differ by a whole number of turns are
    equal. *)
Lemma congruent_in_range_eq (r t : Q) (z : Z) :
  0 <= r -> r < 360 -> 0 <= t -> t < 360 ->
  r == t + 360 * inject_Z z -> r == t.
Proof.
  intros Hr0 Hr1 Ht0 Ht1 Heq.
  assert (Hz : z = 0%Z).
  { assert (Hgt : inject_Z (-1) < inject_Z z) by (change (inject_Z (-1)) with (-1); lra).
    assert (Hlt : inject_Z z < inject_Z 1) by (change (inject_Z 1) with 1; lra).
    rewrite <- Zlt_Qlt in Hgt, Hlt. lia. }
  subst z. rewrite Heq. change (inject_Z 0) with 0. ring.
Qed.

Lemma multiple_of_15_range (z : Z) :
  0 <= 15 * inject_Z (z mod 24) /\ 15 * inject_Z (z mod 24) < 360.
Proof.
  pose proof (Z.mod_pos_bound z 24 ltac:(lia)) as [Hlo Hhi].
  rewrite Zle_Qle in Hlo. rewrite Zlt_Qlt in Hhi.
  change (inject_Z 0) with 0 in Hlo. change (inject_Z 24) with 24 in Hhi.
  split; lra.
Qed.

(** [% 360] of a dividend that is not negative and is, up to whole
    turns, [d] steps of 15 away from the multiple [z mod 24] of 15. *)
Lemma js_rem_multiple_of_15 (a arg : Q) (z d c : Z) :
  a == 15 * inject_Z (z mod 24) ->
  arg == a + 15 * inject_Z d + 360 * inject_Z c ->
  0 <= arg ->
  js_rem arg 360 == 15 * inject_Z ((z + d) mod 24).
Proof.
  intros Ha Harg Hpos.
  destruct (js_rem_360_range Hpos) as [Hr0 Hr1].
  destruct (js_rem_congruent arg 360) as [k Hk].
  destruct (multiple_of_15_range (z + d)) as [Ht0 Ht1].
  assert (Hq : ((z + d) mod 24 = z mod 24 + d + 24 * (z / 24 - (z + d) / 24))%Z).
  { pose proof (Z.div_mod z 24 ltac:(lia)).
    pose proof (Z.div_mod (z + d) 24 ltac:(lia)). lia. }
  apply (@congruent_in_range_eq _ _ (c + k - (z / 24 - (z + d) / 24))%Z);
    try assumption.
  rewrite Hk, Harg, Ha, Hq.
  unfold Z.sub. rewrite !inject_Z_plus, !inject_Z_opp, !inject_Z_mult, !inject_Z_plus,
    !inject_Z_opp.
  change (inject_Z 24) with 24. ring.
Qed.

Section HeadingFacts.

Context {host : JsHost}.

Lemma moveRobot_heading_step (env : Environment) (a : Action) (p : Position) (z : Z) :
  angle p == 15 * inject_Z (z mod 24) ->
  angle (moveRobot env a p) == 15 * inject_Z ((z + netTurns [a]) mod 24).
Proof.
  intro Hz. rewrite moveRobot_angle.
  destruct (multiple_of_15_range z) as [H0 H1].
  destruct a; cbn [netTurns]; rewrite ?Z.add_0_r; try assumption.
  - apply (@js_rem_multiple_of_15 (angle p) _ z (-1) 1); [assumption | | lra].
    change (inject_Z (-1)) with (-1). change (inject_Z 1) with 1. ring.
  - apply (@js_rem_multiple_of_15 (angle p) _ z 1 0); [assumption | | lra].
    change (inject_Z 1) with 1. change (inject_Z 0) with 0. ring.
Qed.

Lemma netTurns_cons (a : Action) (acts : list Action) :
  netTurns (a :: acts) = (netTurns [a] + netTurns acts)%Z.
Proof. destruct a; cbn [netTurns]; lia. Qed.

Lemma applyActions_heading (env : Environment) (acts : list Action) :
  forall (p : Position) (z : Z),
    angle p == 15 * inject_Z (z mod 24) ->
    angle (applyActions env acts p) == 15 * inject_Z ((z + netTurns acts) mod 24).
Proof.
  unfold applyActions.
  induction acts as [|a acts IH]; intros p z Hz.
  - cbn. rewrite Z.add_0_r. assumption.
  - cbn [fold_left]. rewrite netTurns_cons, Z.add_assoc.
    apply IH. now apply moveRobot_heading_step.
Qed.

(** X5: from a heading of [15 k] degrees, [k] from 0 to 23, any list of
    actions leaves the heading at [15 ((k + r - l) mod 24)] degrees, with
    [r] the rights and [l] the lefts of the list: the heading depends on
    their numbers only, not on their order nor on the moves in between,
    and 24 turns one way bring it back. *)
Theorem X5_heading_after_actions
    (env : Environment) (acts : list Action) (p : Position) (k : Z) :
  (0 <= k < 24)%Z ->
  angle p == 15 * inject_Z k ->
  angle (applyActions env acts p) == 15 * inject_Z ((k + netTurns acts) mod 24).
Proof.
  intros Hk Hp. apply applyActions_heading.
  rewrite Z.mod_small by assumption. assumption.
Qed.

End HeadingFacts.

(** ** What holds in every state the component can reach *)

Section ReachableFacts.

Context {host : JsHost}.

Lemma handleAll_invariant (P : State -> Prop) :
  (forall e st, P st -> P (handle e st)) ->
  forall events st, P st -> P (handleAll events st).
Proof.
  intros Hstep events. unfold handleAll.
  induction events as [|e events IH]; intros st Hst; cbn [fold_left].
  - assumption.
  - apply IH, Hstep, Hst.
Qed.

Lemma executeCommands_position (st : State) :
  position (executeCommands st) = position st.
Proof.
  unfold executeCommands.
  destruct ((List.length (commands st) =? 0)%nat || isExecuting st); [reflexivity|].
  destruct (commands st); reflexivity.
Qed.

Lemma resetRobot_consistent (st : State) :
  In (currentEnvironment st) ENVIRONMENTS -> consistent (resetRobot st).
Proof.
  intro Hin. unfold consistent. cbn. split; [assumption|]. split.
  - split; [discriminate | congruence].
  - discriminate.
Qed.

Lemma handle_consistent (e : Event) (st : State) :
  consistent st -> consistent (handle e st).
Proof.
  intro Hcons. pose proof Hcons as (Hin & Hrun & Henv).
  destruct e as [a | now a | | | | | i | program]; cbn [handle].
  - exact Hcons.
  - exact Hcons.
  - unfold executeCommands.
    destruct ((List.length (commands st) =? 0)%nat || isExecuting st) eqn:Hguard;
      [exact Hcons|].
    destruct (commands st) as [|c rest]; [discriminate Hguard|].
    unfold consistent. cbn. split; [assumption|]. split.
    + split; [discriminate | reflexivity].
    + intros t Ht. injection Ht as <-. reflexivity.
  - unfold timerFires. destruct (executionRef st) as [t|] eqn:Href;
      [|exact Hcons].
    pose proof (Henv t eq_refl) as Ht.
    assert (Hon : isExecuting st = true) by (apply Hrun; discriminate).
    destruct (timeout_rest t) as [|c rest]; unfold consistent; cbn.
    + split; [assumption|]. split; [split; [discriminate | congruence] | discriminate].
    + split; [assumption|]. split.
      * split; [discriminate | intros _; exact Hon].
      * intros t' Ht'. injection Ht' as <-. exact Ht.
  - unfold consistent. cbn. split; [assumption|]. split.
    + split; [discriminate | congruence].
    + discriminate.
  - now apply resetRobot_consistent.
  - destruct (nth_error ENVIRONMENTS i) as [env|] eqn:Hnth;
      [|exact Hcons].
    unfold selectEnvironment. apply resetRobot_consistent. cbn.
    exact (nth_error_In _ _ Hnth).
  - unfold loadProgram.
    destruct (findEnvironment (prog_environment program)) as [env|] eqn:Hfind;
      apply resetRobot_consistent; cbn; [|assumption].
    unfold findEnvironment in Hfind. apply find_some in Hfind. tauto.
Qed.

Lemma initialState_consistent : consistent initialState.
Proof.
  unfold consistent. cbn. split; [now left|]. split.
  - split; [discriminate | congruence].
  - discriminate.
Qed.

Lemma runEvents_consistent (events : list Event) : consistent (runEvents events).
Proof.
  unfold runEvents. apply handleAll_invariant.
  - apply handle_consistent.
  - apply initialState_consistent.
Qed.

(** X6: whatever the user presses and whenever the timer fires, the
    active environment is one of the catalogue, the executor is marked
    as running exactly while a timer is pending, and the pending timer
    will move the robot against the obstacles of the active
    environment, not of an earlier one. *)
Theorem X6_reachable_states_are_consistent (events : list Event) :
  let st := runEvents events in
  In (currentEnvironment st) ENVIRONMENTS
  /\ (isExecuting st = true <-> executionRef st <> None)
  /\ (forall t, executionRef st = Some t -> timeout_env t = currentEnvironment st).
Proof.
  exact (runEvents_consistent events).
Qed.

Lemma handle_heading (e : Event) (st : State) :
  (exists z : Z, angle (position st) == 15 * inject_Z (z mod 24)) ->
  exists z : Z, angle (position (handle e st)) == 15 * inject_Z (z mod 24).
Proof.
  intros [z Hz].
  destruct e as [a | now a | | | | | i | program]; cbn [handle].
  - exists (z + netTurns [a])%Z. cbn. now apply moveRobot_heading_step.
  - exists z. exact Hz.
  - exists z. rewrite executeCommands_position. exact Hz.
  - unfold timerFires. destruct (executionRef st) as [t|]; [|exists z; exact Hz].
    exists (z + netTurns [timeout_action t])%Z.
    destruct (timeout_rest t); cbn; now apply moveRobot_heading_step.
  - exists z. exact Hz.
  - exists 0%Z. reflexivity.
  - destruct (nth_error ENVIRONMENTS i); [exists 0%Z; reflexivity | exists z; exact Hz].
  - exists 0%Z. reflexivity.
Qed.

(** X7: in every state the component can reach, the heading is one of
    the 24 multiples of 15 from 0 to 345. *)
Theorem X7_reachable_heading_is_multiple_of_15 (events : list Event) :
  exists k : Z,
    (0 <= k < 24)%Z /\ angle (position (runEvents events)) == 15 * inject_Z k.
Proof.
  destruct (@handleAll_invariant
              (fun st => exists z : Z, angle (position st) == 15 * inject_Z (z mod 24))
              handle_heading events initialState) as [z Hz].
  - exists 0%Z. reflexivity.
  - exists (z mod 24)%Z. split; [apply Z.mod_pos_bound; lia | exact Hz].
Qed.

End ReachableFacts.

(** ** The arena *)

(** Linear arithmetic after the halvings of the code are made
    multiplications. *)
Ltac qlra := unfold Qdiv in *; change (/ 2) with (1 # 2) in *; lra.

Section ArenaFacts.

Context {host : JsHost}.

Lemma CANVAS_WIDTH_cases :
  300 <= CANVAS_WIDTH
  /\ ((screenWidth - 32 < 300 /\ CANVAS_WIDTH == 300)
      \/ (300 <= screenWidth - 32 /\ CANVAS_WIDTH == screenWidth - 32)).
Proof.
  unfold CANVAS_WIDTH, Math_max.
  split; [apply Q.le_max_r | apply Q.max_spec].
Qed.

Lemma checkCollision_false (env : Environment) (px py : Q) :
  checkCollision env px py = false <->
  forall o, In o (obstacles env) -> ~ inside o px py.
Proof.
  unfold checkCollision. split.
  - intros Hfree o Hin Hins.
    assert (Hb : checkCollision_loop (obstacles env) px py = true)
      by (apply checkCollision_loop_spec; exists o; split; assumption).
    congruence.
  - intro Hnone. destruct (checkCollision_loop (obstacles env) px py) eqn:Hb;
      [|reflexivity].
    apply checkCollision_loop_spec in Hb. destruct Hb as (o & Hin & Hins).
    exfalso. exact (Hnone o Hin Hins).
Qed.

(** Where the pose of [resetRobot] is blocked, in terms of the width of
    the canvas. *)
Lemma reset_pose_blocked_iff (env : Environment) :
  In env ENVIRONMENTS ->
  (checkCollision env (CANVAS_WIDTH / 2) (CANVAS_HEIGHT / 2) = true <->
   name env = "Simple Maze"%string /\ 500 <= CANVAS_WIDTH /\ CANVAS_WIDTH <= 540).
Proof.
  intro Hin. destruct CANVAS_WIDTH_cases as [Hmin _].
  unfold checkCollision. rewrite checkCollision_loop_spec.
  unfold CANVAS_HEIGHT. cbn [ENVIRONMENTS In] in Hin. unfold CANVAS_HEIGHT in Hin.
  destruct Hin as [<- | [<- | [<- | []]]]; cbn [name obstacles]; split.
  - intros (o & Ho & Hx & Hy). cbn [In] in Ho. exfalso.
    repeat (destruct Ho as [<- | Ho];
            [cbn [obs_x obs_y width height] in Hx, Hy; qlra|]).
    exact Ho.
  - intros [Hname _]. discriminate Hname.
  - intros (o & Ho & Hx & Hy). cbn [In] in Ho.
    split; [reflexivity|].
    do 5 (destruct Ho as [<- | Ho];
          [exfalso; cbn [obs_x obs_y width height] in Hx, Hy; qlra|]).
    destruct Ho as [<- | []]. cbn [obs_x obs_y width height] in Hx, Hy.
    split; qlra.
  - intros (_ & Hlo & Hhi). exists (mkObstacle 250 200 20 150).
    split; [cbn; tauto|]. unfold inside. cbn [obs_x obs_y width height].
    repeat split; qlra.
  - intros (o & Ho & Hx & Hy). cbn [In] in Ho. exfalso.
    repeat (destruct Ho as [<- | Ho];
            [cbn [obs_x obs_y width height] in Hx, Hy; qlra|]).
    exact Ho.
  - intros [Hname _]. discriminate Hname.
Qed.

(** X8: the pose [resetRobot] sets, the centre of the canvas, lies on
    an obstacle in exactly one case: the environment "Simple Maze" on a
    window 532 to 572 wide, where the centre falls on the upper edge of
    the obstacle at (250, 200). In "Open Space" and "Obstacle Course",
    and on every other width, it is free. *)
Theorem X8_reset_pose_blocked_only_in_simple_maze (env : Environment) :
  In env ENVIRONMENTS ->
  (checkCollision env (CANVAS_WIDTH / 2) (CANVAS_HEIGHT / 2) = true <->
   name env = "Simple Maze"%string /\ 532 <= screenWidth /\ screenWidth <= 572).
Proof.
  intro Hin. rewrite (reset_pose_blocked_iff Hin).
  destruct CANVAS_WIDTH_cases as [_ [[Hs Hw] | [Hs Hw]]]; rewrite Hw;
    split; intros (Hn & Hlo & Hhi); (split; [exact Hn | split; lra]).
Qed.

Lemma walls_in_catalogue (env : Environment) :
  In env ENVIRONMENTS ->
  In (mkObstacle 0 0 CANVAS_WIDTH 5) (obstacles env)
  /\ In (mkObstacle 0 (CANVAS_HEIGHT - 5) CANVAS_WIDTH 5) (obstacles env)
  /\ In (mkObstacle 0 0 5 CANVAS_HEIGHT) (obstacles env)
  /\ In (mkObstacle (CANVAS_WIDTH - 5) 0 5 CANVAS_HEIGHT) (obstacles env).
Proof.
  intro Hin. cbn [ENVIRONMENTS In] in Hin.
  destruct Hin as [<- | [<- | [<- | []]]]; cbn [obstacles In]; tauto.
Qed.

(** A point less than 5 away, in each coordinate, from a point strictly
    between the walls is either on a wall or strictly between them. *)
Lemma free_target_insideArena (env : Environment) (p : Position) (dx dy : Q) :
  In env ENVIRONMENTS ->
  insideArena p ->
  -5 <= dx -> dx <= 5 -> -5 <= dy -> dy <= 5 ->
  checkCollision env (x p + dx) (y p + dy) = false ->
  insideArena (mkPosition (x p + dx) (y p + dy) (angle p)).
Proof.
  intros Hin [[Hx0 Hx1] [Hy0 Hy1]] Hdx0 Hdx1 Hdy0 Hdy1 Hfree.
  destruct (walls_in_catalogue Hin) as (Htop & Hbottom & Hleft & Hright).
  rewrite checkCollision_false in Hfree.
  pose proof (Hfree _ Htop) as Ntop. pose proof (Hfree _ Hbottom) as Nbottom.
  pose proof (Hfree _ Hleft) as Nleft. pose proof (Hfree _ Hright) as Nright.
  unfold inside in Ntop, Nbottom, Nleft, Nright.
  unfold insideArena in *. unfold CANVAS_HEIGHT in *.
  cbn [x y obs_x obs_y width height] in *.
  repeat split.
  - apply Qnot_le_lt. intro H. apply Nleft. repeat split; lra.
  - apply Qnot_le_lt. intro H. apply Nright. repeat split; lra.
  - apply Qnot_le_lt. intro H. apply Ntop. repeat split; lra.
  - apply Qnot_le_lt. intro H. apply Nbottom. repeat split; lra.
Qed.

Lemma moveRobot_insideArena (env : Environment) (a : Action) (p : Position) :
  In env ENVIRONMENTS ->
  unitTrig host ->
  insideArena p ->
  insideArena (moveRobot env a p).
Proof.
  intros Hin Hunit Hp.
  destruct (Hunit (angle p * Math_PI / 180)) as [[Hc0 Hc1] [Hs0 Hs1]].
  set (c := Math_cos (angle p * Math_PI / 180)) in *.
  set (s := Math_sin (angle p * Math_PI / 180)) in *.
  destruct a; cbn [moveRobot]; fold c s; try exact Hp.
  - destruct (checkCollision env (x p + c * 5) (y p + s * 5)) eqn:Hb; cbn [negb];
      [exact Hp|].
    apply free_target_insideArena with (env := env); try assumption; lra.
  - destruct (checkCollision env (x p - c * 5) (y p - s * 5)) eqn:Hb; cbn [negb];
      [exact Hp|].
    change (x p - c * 5) with (x p + - (c * 5)) in *.
    change (y p - s * 5) with (y p + - (s * 5)) in *.
    apply free_target_insideArena with (env := env); try assumption; lra.
Qed.

Lemma reset_pose_insideArena :
  insideArena (mkPosition (CANVAS_WIDTH / 2) (CANVAS_HEIGHT / 2) 0).
Proof.
  destruct CANVAS_WIDTH_cases as [Hmin _].
  unfold insideArena, CANVAS_HEIGHT. cbn [x y].
  repeat split; qlra.
Qed.

Lemma handle_insideArena (e : Event) (st : State) :
  unitTrig host ->
  consistent st /\ insideArena (position st) ->
  consistent (handle e st) /\ insideArena (position (handle e st)).
Proof.
  intros Hunit [Hcons Hp]. split; [now apply handle_consistent|].
  pose proof Hcons as (Hin & Hrun & Henv).
  destruct e as [a | now a | | | | | i | program]; cbn [handle].
  - cbn. now apply moveRobot_insideArena.
  - exact Hp.
  - rewrite executeCommands_position. exact Hp.
  - unfold timerFires. destruct (executionRef st) as [t|] eqn:Href; [|exact Hp].
    assert (Ht : In (timeout_env t) ENVIRONMENTS)
      by (rewrite (Henv t eq_refl); exact Hin).
    destruct (timeout_rest t); cbn; now apply moveRobot_insideArena.
  - exact Hp.
  - apply reset_pose_insideArena.
  - destruct (nth_error ENVIRONMENTS i); [apply reset_pose_insideArena | exact Hp].
  - apply reset_pose_insideArena.
Qed.

(** X9: on a host whose cosine and sine stay within [-1, 1], the robot
    never leaves the arena: in every state the component can reach, in
    every environment of the catalogue, its position is strictly between
    the four walls. No step of 5 carries it over a wall 5 thick. *)
Theorem X9_robot_stays_between_walls (events : list Event) :
  unitTrig host ->
  insideArena (position (runEvents events)).
Proof.
  intro Hunit.
  apply (@handleAll_invariant host
           (fun st => consistent st /\ insideArena (position st))
           (fun e st => @handle_insideArena e st Hunit) events initialState).
  split; [apply initialState_consistent | apply reset_pose_insideArena].
Qed.

Lemma moveRobot_keeps_free (env : Environment) (a : Action) (p : Position) :
  checkCollision env (x p) (y p) = false ->
  checkCollision env (x (moveRobot env a p)) (y (moveRobot env a p)) = false.
Proof.
  intro Hfree. destruct a; cbn [moveRobot]; try exact Hfree;
    match goal with |- context [negb (checkCollision ?e ?u ?v)] =>
      destruct (checkCollision e u v) eqn:Hb end; cbn; assumption.
Qed.

Lemma reset_pose_free (env : Environment) :
  screenWidth < 532 \/ 572 < screenWidth ->
  In env ENVIRONMENTS ->
  checkCollision env (CANVAS_WIDTH / 2) (CANVAS_HEIGHT / 2) = false.
Proof.
  intros Hw Hin.
  destruct (checkCollision env (CANVAS_WIDTH / 2) (CANVAS_HEIGHT / 2)) eqn:Hb;
    [|reflexivity].
  apply (reset_pose_blocked_iff Hin) in Hb. destruct Hb as (_ & Hlo & Hhi).
  destruct CANVAS_WIDTH_cases as [_ [[Hs Hc] | [Hs Hc]]]; rewrite Hc in Hlo, Hhi;
    exfalso; lra.
Qed.

Lemma handle_free (e : Event) (st : State) :
  screenWidth < 532 \/ 572 < screenWidth ->
  consistent st
  /\ checkCollision (currentEnvironment st) (x (position st)) (y (position st)) = false ->
  consistent (handle e st)
  /\ checkCollision (currentEnvironment (handle e st))
       (x (position (handle e st))) (y (position (handle e st))) = false.
Proof.
  intros Hw [Hcons Hfree]. pose proof (handle_consistent e Hcons) as Hcons'.
  split; [exact Hcons'|].
  pose proof Hcons as (Hin & Hrun & Henv).
  destruct e as [a | now a | | | | | i | program]; cbn [handle] in *.
  - cbn. now apply moveRobot_keeps_free.
  - exact Hfree.
  - rewrite executeCommands_position.
    replace (currentEnvironment (executeCommands st)) with (currentEnvironment st);
      [exact Hfree|].
    unfold executeCommands.
    destruct ((List.length (commands st) =? 0)%nat || isExecuting st); [reflexivity|].
    destruct (commands st); reflexivity.
  - unfold timerFires. destruct (executionRef st) as [t|] eqn:Href; [|exact Hfree].
    pose proof (Henv t eq_refl) as Ht.
    destruct (timeout_rest t); cbn; rewrite Ht; now apply moveRobot_keeps_free.
  - exact Hfree.
  - cbn. now apply reset_pose_free.
  - destruct (nth_error ENVIRONMENTS i) as [env|] eqn:Hnth; [|exact Hfree].
    cbn. apply reset_pose_free; [exact Hw | exact (nth_error_In _ _ Hnth)].
  - destruct Hcons' as (Hin' & _). cbn. apply reset_pose_free; [exact Hw|].
    exact Hin'.
Qed.

(** X10: on a window that is not 532 to 572 wide, the robot is never on
    an obstacle of the active environment, in any state the component
    can reach: not after a move by hand, a step of a program, a reset,
    a change of environment or the loading of a program. *)
Theorem X10_robot_never_on_an_obstacle (events : list Event) :
  screenWidth < 532 \/ 572 < screenWidth ->
  checkCollision (currentEnvironment (runEvents events))
    (x (position (runEvents events))) (y (position (runEvents events))) = false.
Proof.
  intro Hw.
  apply (@handleAll_invariant host
           (fun st => consistent st
                      /\ checkCollision (currentEnvironment st)
                           (x (position st)) (y (position st)) = false)
           (fun e st => @handle_free e st Hw) events initialState).
  split; [apply initialState_consistent|].
  apply (@reset_pose_free (currentEnvironment initialState) Hw).
  apply initialState_consistent.
Qed.

End ArenaFacts.

(** ** Sensor readings *)

Section ReadingFacts.

Context {host : JsHost}.

Variable env : Environment.
Variable heading : Q.

Let dx : Q := Math_cos ((heading * Math_PI) / 180) * 5.
Let dy : Q := Math_sin ((heading * Math_PI) / 180) * 5.

(** With [n] steps of 5 left before 200: if the next [j] probes are free
    and, unless that exhausts the range, the one after them is blocked,
    the loop returns the distance it started from plus [5 j]. *)
Lemma calculateDistance_loop_first_blocked (j : nat) :
  forall (n fuel : nat) (distance testX testY : Q),
    (j <= n)%nat -> (n < fuel)%nat ->
    distance == 200 - 5 * inject_Z (Z.of_nat n) ->
    (forall k, (1 <= k <= j)%nat ->
       checkCollision env (probe k testX dx) (probe k testY dy) = false) ->
    ((j < n)%nat ->
       checkCollision env (probe (S j) testX dx) (probe (S j) testY dy) = true) ->
    exists r, calculateDistance_loop fuel env heading distance testX testY = Some r
              /\ r == distance + 5 * inject_Z (Z.of_nat j).
Proof.
  induction j as [|j IH]; intros n fuel distance testX testY Hjn Hfuel Hd Hfree Hblocked;
    (destruct fuel as [|fuel]; [lia|]); cbn [calculateDistance_loop].
  - change (inject_Z (Z.of_nat 0)) with 0.
    destruct n as [|n].
    + change (inject_Z (Z.of_nat 0)) with 0 in Hd.
      assert (Hdone : Qlt_bool distance 200 = false)
        by (apply Qlt_bool_false_iff; lra).
      rewrite Hdone. exists distance. split; [reflexivity | ring].
    + rewrite Nat2Z.inj_succ, <- Z.add_1_r, inject_Z_plus in Hd.
      change (inject_Z 1) with 1 in Hd.
      assert (Hn0 : 0 <= inject_Z (Z.of_nat n))
        by (change 0 with (inject_Z 0); rewrite <- Zle_Qle; lia).
      assert (Hgo : Qlt_bool distance 200 = true) by (apply Qlt_bool_iff; lra).
      rewrite Hgo. pose proof (Hblocked ltac:(lia)) as Hb. cbn [probe] in Hb.
      fold dx dy. rewrite Hb. exists distance. split; [reflexivity | ring].
  - destruct n as [|n]; [lia|].
    rewrite Nat2Z.inj_succ, <- Z.add_1_r, inject_Z_plus in Hd.
    change (inject_Z 1) with 1 in Hd.
    assert (Hn0 : 0 <= inject_Z (Z.of_nat n))
      by (change 0 with (inject_Z 0); rewrite <- Zle_Qle; lia).
    assert (Hgo : Qlt_bool distance 200 = true) by (apply Qlt_bool_iff; lra).
    rewrite Hgo. pose proof (Hfree 1%nat ltac:(lia)) as H1. cbn [probe] in H1.
    fold dx dy. rewrite H1.
    destruct (IH n fuel (distance + 5) (testX + dx) (testY + dy))
      as (r & Hr & Heq); [lia | lia | lra | | |].
    + intros k Hk. rewrite !probe_shift. apply Hfree. lia.
    + intro Hlt. rewrite !probe_shift. apply Hblocked. lia.
    + exists r. split; [exact Hr|]. rewrite Heq.
      rewrite (Nat2Z.inj_succ j), <- Z.add_1_r, inject_Z_plus.
      change (inject_Z 1) with 1. ring.
Qed.

(** Whatever is blocked, the loop returns 200 less a whole number of
    steps of 5. *)
Lemma calculateDistance_loop_quantized (n : nat) :
  forall (fuel : nat) (distance testX testY : Q),
    (n < fuel)%nat ->
    distance == 200 - 5 * inject_Z (Z.of_nat n) ->
    exists (m : nat) (r : Q),
      (m <= n)%nat
      /\ calculateDistance_loop fuel env heading distance testX testY = Some r
      /\ r == 200 - 5 * inject_Z (Z.of_nat m).
Proof.
  induction n as [|n IH]; intros fuel distance testX testY Hfuel Hd;
    (destruct fuel as [|fuel]; [lia|]); cbn [calculateDistance_loop].
  - exists 0%nat, distance.
    change (inject_Z (Z.of_nat 0)) with 0 in Hd.
    assert (Hdone : Qlt_bool distance 200 = false)
      by (apply Qlt_bool_false_iff; lra).
    rewrite Hdone. repeat split; [lia | exact Hd].
  - destruct (Qlt_bool distance 200);
      [|exists (S n), distance; repeat split; [lia | exact Hd]].
    destruct (checkCollision env _ _);
      [exists (S n), distance; repeat split; [lia | exact Hd]|].
    destruct (IH fuel (distance + 5)
                (testX + Math_cos (heading * Math_PI / 180) * 5)
                (testY + Math_sin (heading * Math_PI / 180) * 5))
      as (m & r & Hm & Hr & Heq); [lia | |].
    + rewrite Hd, Nat2Z.inj_succ, <- Z.add_1_r, inject_Z_plus.
      change (inject_Z 1) with 1. ring.
    + exists m, r. repeat split; [lia | exact Hr | exact Heq].
Qed.

End ReadingFacts.

Section SensorReadings.

Context {host : JsHost}.

(** X11: the reading of [calculateDistance] is 5 times the number of
    free probe points before the first blocked one: if the first [j]
    probes are free and, for [j] below 40, probe [j + 1] is blocked, the
    result is [5 j]. The blocked probe itself is not counted, so the
    reading stops one step short of the obstacle. *)
Theorem X11_reading_counts_free_probes
    (fuel : nat) (env : Environment) (x0 y0 heading : Q) (j : nat) :
  (41 <= fuel)%nat ->
  (j <= 40)%nat ->
  (forall k, (1 <= k <= j)%nat ->
     checkCollision env (probeX x0 heading k) (probeY y0 heading k) = false) ->
  ((j < 40)%nat ->
     checkCollision env (probeX x0 heading (S j)) (probeY y0 heading (S j)) = true) ->
  exists d,
    calculateDistance fuel env x0 y0 heading = Some d
    /\ d == 5 * inject_Z (Z.of_nat j).
Proof.
  intros Hfuel Hj Hfree Hblocked. unfold calculateDistance.
  destruct (@calculateDistance_loop_first_blocked host env heading j 40 fuel 0 x0 y0)
    as (r & Hr & Heq); [lia | lia | reflexivity | exact Hfree | exact Hblocked |].
  rewrite Hr. exists (Math_min r 200). split; [reflexivity|].
  assert (Hj40 : inject_Z (Z.of_nat j) <= 40)
    by (change 40 with (inject_Z 40); rewrite <- Zle_Qle; lia).
  unfold Math_min. rewrite Q.min_l by lra. rewrite Heq. ring.
Qed.

Lemma calculateDistance_quantized (fuel : nat) (env : Environment) (x0 y0 heading : Q) :
  (41 <= fuel)%nat ->
  exists (j : nat) (d : Q),
    (j <= 40)%nat
    /\ calculateDistance fuel env x0 y0 heading = Some d
    /\ d == inject_Z (5 * Z.of_nat j).
Proof.
  intro Hfuel. unfold calculateDistance.
  destruct (@calculateDistance_loop_quantized host env heading 40 fuel 0 x0 y0)
    as (m & r & Hm & Hr & Heq); [lia | reflexivity |].
  rewrite Hr. exists (40 - m)%nat, (Math_min r 200).
  split; [lia|]. split; [reflexivity|].
  assert (Hm0 : 0 <= inject_Z (Z.of_nat m))
    by (change 0 with (inject_Z 0); rewrite <- Zle_Qle; lia).
  unfold Math_min. rewrite Q.min_l by lra. rewrite Heq.
  rewrite Nat2Z.inj_sub by lia. rewrite inject_Z_mult. unfold Z.sub.
  rewrite inject_Z_plus, inject_Z_opp. change (inject_Z (Z.of_nat 40)) with 40.
  change (inject_Z 5) with 5. ring.
Qed.

(** [Math.round] of a whole number is that number. *)
Lemma Math_round_whole (q : Q) (z : Z) : q == inject_Z z -> Math_round q == q.
Proof.
  intro Hq. unfold Math_round.
  assert (Hfloor : Qfloor (inject_Z z + (1 # 2)) = z).
  { unfold Qfloor, inject_Z, Qplus. cbn [Qnum Qden].
    symmetry. apply Z.div_unique with (r := 1%Z); lia. }
  assert (Hsame : Qfloor (q + (1 # 2)) = z).
  { transitivity (Qfloor (inject_Z z + (1 # 2))); [|exact Hfloor].
    apply Qfloor_comp. rewrite Hq. reflexivity. }
  rewrite Hsame. symmetry. exact Hq.
Qed.

(** X12: with fuel for its three ray casts, [updateSensors] yields
    three readings, each 5 times a whole number from 0 to 40, and each
    equal to what [calculateDistance] returned for the heading, the
    heading less 90 and the heading plus 90: [Math.round] never changes
    a reading. *)
Theorem X12_updateSensors_readings (fuel : nat) (st : State) :
  (41 <= fuel)%nat ->
  let p := position st in
  let env := currentEnvironment st in
  exists (s : Sensors) (jf jl jr : nat),
    updateSensors fuel st = Some s
    /\ (jf <= 40 /\ jl <= 40 /\ jr <= 40)%nat
    /\ sensor_front s == inject_Z (5 * Z.of_nat jf)
    /\ sensor_left s == inject_Z (5 * Z.of_nat jl)
    /\ sensor_right s == inject_Z (5 * Z.of_nat jr)
    /\ (exists df dl dr,
          calculateDistance fuel env (x p) (y p) (angle p) = Some df
          /\ calculateDistance fuel env (x p) (y p) (angle p - 90) = Some dl
          /\ calculateDistance fuel env (x p) (y p) (angle p + 90) = Some dr
          /\ sensor_front s == df /\ sensor_left s == dl /\ sensor_right s == dr).
Proof.
  intros Hfuel p env. unfold updateSensors. fold p env.
  destruct (calculateDistance_quantized env (x p) (y p) (angle p) Hfuel)
    as (jf & df & Hjf & Hdf & Hqf).
  destruct (calculateDistance_quantized env (x p) (y p) (angle p - 90) Hfuel)
    as (jl & dl & Hjl & Hdl & Hql).
  destruct (calculateDistance_quantized env (x p) (y p) (angle p + 90) Hfuel)
    as (jr & dr & Hjr & Hdr & Hqr).
  rewrite Hdf, Hdl, Hdr.
  exists (mkSensors (Math_round df) (Math_round dl) (Math_round dr)), jf, jl, jr.
  cbn [sensor_front sensor_left sensor_right].
  pose proof (Math_round_whole Hqf) as Hrf.
  pose proof (Math_round_whole Hql) as Hrl.
  pose proof (Math_round_whole Hqr) as Hrr.
  split; [reflexivity|]. split; [lia|].
  split; [rewrite Hrf; exact Hqf|]. split; [rewrite Hrl; exact Hql|].
  split; [rewrite Hrr; exact Hqr|].
  exists df, dl, dr. repeat split; assumption.
Qed.

End SensorReadings.

(** ** Saving and loading *)

Section ProgramFacts.

Context {host : JsHost}.

(** The names of the catalogue tell its environments apart. *)
Lemma findEnvironment_known (env : Environment) :
  In env ENVIRONMENTS -> findEnvironment (name env) = Some env.
Proof.
  intro Hin. cbn [ENVIRONMENTS In] in Hin.
  destruct Hin as [<- | [<- | [<- | []]]]; reflexivity.
Qed.

(** X13: the body [saveProgram] posts in a state the component can
    reach, when it is loaded back in any state, brings back the queue
    and the environment of the state it was saved in; the pose is the
    reset pose and the executor is idle with no timer pending. *)
Theorem X13_saved_program_loads_back
    (events : list Event) (programName : string) (st' : State) :
  let st := runEvents events in
  let loaded := loadProgram (saveProgram_body programName st) st' in
  commands loaded = commands st
  /\ currentEnvironment loaded = currentEnvironment st
  /\ position loaded = mkPosition (CANVAS_WIDTH / 2) (CANVAS_HEIGHT / 2) 0
  /\ isExecuting loaded = false
  /\ executionRef loaded = None.
Proof.
  intros st loaded. unfold loaded, loadProgram, saveProgram_body.
  cbn [prog_commands prog_environment].
  destruct (runEvents_consistent events) as (Hin & _).
  fold st in Hin. rewrite (findEnvironment_known Hin).
  repeat split.
Qed.

End ProgramFacts.

(** ** Readings, obstacles and moves *)

Section ReadingOrder.

Context {host : JsHost}.

(** The loop never returns less than the distance it starts from. *)
Lemma calculateDistance_loop_ge (fuel : nat) (env : Environment) (heading : Q) :
  forall (distance testX testY r : Q),
    calculateDistance_loop fuel env heading distance testX testY = Some r ->
    distance <= r.
Proof.
  induction fuel as [|fuel IH]; intros distance testX testY r Hr;
    cbn [calculateDistance_loop] in Hr; [discriminate Hr|].
  destruct (Qlt_bool distance 200);
    [|injection Hr as <-; apply Qle_refl].
  destruct (checkCollision env _ _); [injection Hr as <-; apply Qle_refl|].
  apply IH in Hr. lra.
Qed.

Lemma checkCollision_more_obstacles (env env' : Environment) (px py : Q) :
  (forall o, In o (obstacles env) -> In o (obstacles env')) ->
  checkCollision env px py = true -> checkCollision env' px py = true.
Proof.
  unfold checkCollision. intros Hsub Hb.
  apply checkCollision_loop_spec in Hb. destruct Hb as (o & Hin & Hins).
  apply checkCollision_loop_spec. exists o. split; [apply Hsub|]; assumption.
Qed.

Lemma calculateDistance_loop_more_obstacles
    (fuel : nat) (env env' : Environment) (heading : Q) :
  (forall o, In o (obstacles env) -> In o (obstacles env')) ->
  forall (distance testX testY r r' : Q),
    calculateDistance_loop fuel env heading distance testX testY = Some r ->
    calculateDistance_loop fuel env' heading distance testX testY = Some r' ->
    r' <= r.
Proof.
  intro Hsub.
  induction fuel as [|fuel IH]; intros distance testX testY r r' Hr Hr';
    [discriminate Hr|].
  cbn [calculateDistance_loop] in Hr'.
  pose proof (calculateDistance_loop_ge _ _ _ _ _ _ Hr) as Hge.
  cbn [calculateDistance_loop] in Hr.
  destruct (Qlt_bool distance 200);
    [|injection Hr as <-; injection Hr' as <-; apply Qle_refl].
  destruct (checkCollision env' _ _) eqn:Hb'; [injection Hr' as <-; exact Hge|].
  destruct (checkCollision env _ _) eqn:Hb.
  - apply (checkCollision_more_obstacles env env' _ _ Hsub) in Hb. congruence.
  - exact (IH _ _ _ _ _ Hr Hr').
Qed.

(** X14: more obstacles never lengthen a reading. If every obstacle of
    one environment is an obstacle of another, the reading of
    [calculateDistance] in the other, from the same point along the same
    heading, is at most the reading in the first. *)
Theorem X14_reading_shrinks_with_obstacles
    (fuel : nat) (env env' : Environment) (x0 y0 heading : Q) :
  (41 <= fuel)%nat ->
  (forall o, In o (obstacles env) -> In o (obstacles env')) ->
  exists d d',
    calculateDistance fuel env x0 y0 heading = Some d
    /\ calculateDistance fuel env' x0 y0 heading = Some d'
    /\ d' <= d.
Proof.
  intros Hfuel Hsub. unfold calculateDistance.
  destruct (@calculateDistance_loop_returns host env heading 40 fuel 0 x0 y0)
    as (r & Hr & _); [lia | vm_compute; discriminate |].
  destruct (@calculateDistance_loop_returns host env' heading 40 fuel 0 x0 y0)
    as (r' & Hr' & _); [lia | vm_compute; discriminate |].
  rewrite Hr, Hr'. exists (Math_min r 200), (Math_min r' 200).
  split; [reflexivity|]. split; [reflexivity|].
  pose proof (calculateDistance_loop_more_obstacles _ _ _ _ Hsub _ _ _ Hr Hr') as Hle.
  unfold Math_min. apply Q.min_le_compat_r. exact Hle.
Qed.

(** X15: the front reading and the motion agree on the first step. The
    reading along the heading of a pose is 0 exactly when the point 5
    ahead is blocked, and then [forward] leaves the pose as it is; a
    reading that is not 0 is at least 5. *)
Theorem X15_zero_reading_iff_forward_refused
    (fuel : nat) (env : Environment) (p : Position) :
  (41 <= fuel)%nat ->
  exists d,
    calculateDistance fuel env (x p) (y p) (angle p) = Some d
    /\ (d == 0 <->
        checkCollision env
          (x p + Math_cos ((angle p * Math_PI) / 180) * 5)
          (y p + Math_sin ((angle p * Math_PI) / 180) * 5) = true)
    /\ (d == 0 -> moveRobot env forward p = p)
    /\ (~ d == 0 -> 5 <= d).
Proof.
  intro Hfuel. unfold calculateDistance.
  destruct (@calculateDistance_loop_returns host env (angle p) 40 fuel 0 (x p) (y p))
    as (r & Hr & _); [lia | vm_compute; discriminate |].
  rewrite Hr. exists (Math_min r 200). split; [reflexivity|].
  destruct fuel as [|fuel]; [lia|]. cbn [calculateDistance_loop] in Hr.
  change (Qlt_bool 0 200) with true in Hr. cbv iota in Hr.
  cbn [moveRobot]. unfold Math_min.
  destruct (checkCollision env
              (x p + Math_cos (angle p * Math_PI / 180) * 5)
              (y p + Math_sin (angle p * Math_PI / 180) * 5)) eqn:Hb.
  - injection Hr as <-. cbn [negb].
    assert (Hmin : Qmin 0 200 == 0) by (apply Q.min_l; discriminate).
    split; [split; [reflexivity | intros _; exact Hmin]|].
    split; [reflexivity|]. intro Hnz. exfalso. exact (Hnz Hmin).
  - apply calculateDistance_loop_ge in Hr.
    assert (Hmin : 5 <= Qmin r 200) by (apply Q.min_glb; lra).
    split; [split; [intro Hz; exfalso; lra | discriminate]|].
    split; [intro Hz; exfalso; lra | intros _; exact Hmin].
Qed.

End ReadingOrder.

(** ** The further properties at concrete inputs *)

(** Running the scenario queue twice. *)
Lemma X1_run_twice_witness :
  position (@runProgram sampleHost (@runProgram sampleHost stopQueueState))
  = @applyActions sampleHost openSpace
      ([forward; forward; left; stop; right] ++ [forward; forward; left; stop; right])
      (position stopQueueState).
Proof.
  destruct (@X1_run_keeps_queue_and_repeats sampleHost stopQueueState eq_refl
              ltac:(discriminate)) as (_ & _ & _ & _ & _ & H).
  exact H.
Defined.

(** The scenario after two of its five timers. *)
Lemma X2_run_progress_witness :
  position (@drain sampleHost 2 (executeCommands stopQueueState))
    = @applyActions sampleHost openSpace [forward; forward] (position stopQueueState)
  /\ isExecuting (@drain sampleHost 2 (executeCommands stopQueueState)) = true.
Proof.
  apply (@X2_run_progress sampleHost stopQueueState 2);
    [reflexivity | discriminate | cbn; lia].
Defined.

(** The scenario cleared after two timers: a third firing finds nothing. *)
Lemma X3_clear_witness :
  @drain sampleHost 3
    (clearCommands (@drain sampleHost 2 (executeCommands stopQueueState)))
  = clearCommands (@drain sampleHost 2 (executeCommands stopQueueState)).
Proof.
  destruct (@X3_clear_interrupts_run sampleHost stopQueueState 2 3 eq_refl
              ltac:(discriminate) ltac:(cbn; lia)) as (H & _).
  exact H.
Defined.

(** Two commands added to the empty queue of the mounted component. *)
Lemma X4_added_commands_witness :
  isExecuting
    (@handleAll sampleHost
       ([PressAdd "1" forward; PressAdd "2" left]
        ++ PressExecute :: repeat TimerFires 2)
       (@initialState sampleHost)) = false.
Proof.
  destruct (@X4_added_commands_run_in_order sampleHost (@initialState sampleHost)
              [("1"%string, forward); ("2"%string, left)] eq_refl
              ltac:(discriminate)) as (_ & H).
  exact H.
Defined.

(** From heading 0: right, forward, left, left end at 345 = 15 * 23. *)
Lemma X5_heading_witness :
  angle (@applyActions sampleHost openSpace [right; forward; left; left]
           (mkPosition 200 200 0)) == 345.
Proof.
  apply (@X5_heading_after_actions sampleHost openSpace [right; forward; left; left]
           (mkPosition 200 200 0) 0); [lia | reflexivity].
Defined.

(** On the 520-wide canvas the reset pose (260, 200) is on the upper
    edge of the second obstacle of "Simple Maze". *)
Lemma X8_reset_pose_witness :
  checkCollision (nth 1 (@ENVIRONMENTS tabletHost) openSpace)
    (@CANVAS_WIDTH tabletHost / 2) (CANVAS_HEIGHT / 2) = true.
Proof.
  apply (@X8_reset_pose_blocked_only_in_simple_maze tabletHost
           (nth 1 (@ENVIRONMENTS tabletHost) openSpace)).
  - right. left. reflexivity.
  - split; [reflexivity | split; discriminate].
Defined.

Lemma clampedHost_unitTrig : unitTrig clampedHost.
Proof.
  intro r. unfold clampedHost, clamp1. cbn [Math_cos Math_sin].
  repeat split;
    try apply Q.le_max_l;
    (apply Q.max_lub; [discriminate | apply Q.le_min_l]).
Qed.

(** The sample session on the host with cut-off cosine and sine. *)
Lemma X9_between_walls_witness :
  @insideArena clampedHost (position (@runEvents clampedHost sampleSession)).
Proof.
  apply (@X9_robot_stays_between_walls clampedHost sampleSession).
  exact clampedHost_unitTrig.
Defined.

(** The sample session on the 432-wide window. *)
Lemma X10_never_on_obstacle_witness :
  checkCollision (currentEnvironment (@runEvents sampleHost sampleSession))
    (x (position (@runEvents sampleHost sampleSession)))
    (y (position (@runEvents sampleHost sampleSession))) = false.
Proof.
  apply (@X10_robot_never_on_an_obstacle sampleHost sampleSession).
  left. reflexivity.
Defined.

(** From (380,200), heading 0, in "Open Space": the probes at 385 and
    390 are free, the one at 395 is on the wall; the reading is 10. *)
Lemma X11_reading_witness :
  exists d,
    @calculateDistance sampleHost 41 openSpace 380 200 0 = Some d
    /\ d == 5 * inject_Z (Z.of_nat 2).
Proof.
  apply (@X11_reading_counts_free_probes sampleHost 41 openSpace 380 200 0 2).
  - lia.
  - lia.
  - intros k Hk. destruct k as [|[|[|k]]]; [lia | reflexivity | reflexivity | lia].
  - intros _. reflexivity.
Defined.

(** The readings of the scenario state. *)
Lemma X12_updateSensors_witness :
  exists (s : Sensors) (jf jl jr : nat),
    @updateSensors sampleHost 41 stopQueueState = Some s
    /\ (jf <= 40 /\ jl <= 40 /\ jr <= 40)%nat
    /\ sensor_front s == inject_Z (5 * Z.of_nat jf)
    /\ sensor_left s == inject_Z (5 * Z.of_nat jl)
    /\ sensor_right s == inject_Z (5 * Z.of_nat jr).
Proof.
  destruct (@X12_updateSensors_readings sampleHost 41 stopQueueState ltac:(lia))
    as (s & jf & jl & jr & Hs & Hj & Hf & Hl & Hr & _).
  exists s, jf, jl, jr.
  split; [exact Hs|]. split; [exact Hj|]. split; [exact Hf|].
  split; [exact Hl | exact Hr].
Defined.

(** A reading in "Open Space", and the same with a block in the way. *)
Lemma X14_more_obstacles_witness :
  exists d d',
    @calculateDistance sampleHost 41 openSpace 200 200 0 = Some d
    /\ @calculateDistance sampleHost 41 openSpaceWithBlock 200 200 0 = Some d'
    /\ d' <= d.
Proof.
  apply (@X14_reading_shrinks_with_obstacles sampleHost 41 openSpace openSpaceWithBlock
           200 200 0); [lia|].
  intros o Ho. unfold openSpaceWithBlock. cbn [obstacles].
  apply in_or_app. left. exact Ho.
Defined.

Example calculateDistance_with_block :
  @calculateDistance sampleHost 41 openSpaceWithBlock 200 200 0 = Some 95.
Proof. vm_compute. reflexivity. Qed.

(** At (390,200), heading 0, the point ahead is on the wall: the front
    reading is 0 and forward is refused. *)
Lemma X15_zero_reading_witness :
  exists d,
    @calculateDistance sampleHost 41 openSpace 390 200 0 = Some d
    /\ (d == 0 <->
        checkCollision openSpace
          (390 + @Math_cos sampleHost ((0 * @Math_PI sampleHost) / 180) * 5)
          (200 + @Math_sin sampleHost ((0 * @Math_PI sampleHost) / 180) * 5) = true)
    /\ (d == 0 -> @moveRobot sampleHost openSpace forward (mkPosition 390 200 0)
                  = mkPosition 390 200 0)
    /\ (~ d == 0 -> 5 <= d).
Proof.
  apply (@X15_zero_reading_iff_forward_refused sampleHost 41 openSpace
           (mkPosition 390 200 0)).
  lia.
Defined.

Example calculateDistance_at_wall :
  @calculateDistance sampleHost 41 openSpace 390 200 0 = Some 0.
Proof. vm_compute. reflexivity. Qed.
